(** * Parking-coordination chat assistant: conversation routes and user slice

    A shallow embedding of
      - CopilotParkingBackend/src/routes/conversationRoutes.ts
        (the Express router mounted under /api/conversations), and
      - copilot-frontend/src/store/userSlice.ts (the Redux user slice),
    together with the properties the specification states about them.

    Conventions.
      - A JavaScript string is a [string]: a sequence of code units, here
        restricted to the code units below 256 (ISO-8859-1 text).
      - The relational store behind the Prisma client is a record of tables;
        a table addressed by its primary key is a [gmap], the conversation
        table is a list in insertion order.
      - An async route handler is a computation in a state-and-exception
        monad over the [World]; what the outside answers (clock, generated
        keys, store faults, the completion API) is read from an [Env]. *)

From Stdlib Require Import Ascii String ZArith Lia.
From stdpp Require Import base option list gmap strings pretty sorting.

Local Open Scope Z_scope.

(** ** JavaScript string operations used by the routes *)

Module Js.

(** [String.prototype.toLowerCase] on one code unit below 256: the Latin
    capital letters A-Z and U+00C0-U+00DE (except the multiplication sign
    U+00D7) move up by 32, every other code unit is its own lower case. *)
Definition lower_unit (c : ascii) : ascii :=
  let n := N_of_ascii c in
  if ((65 <=? n) && (n <=? 90) ||
      (192 <=? n) && (n <=? 222) && negb (n =? 215))%N
  then ascii_of_N (n + 32) else c.

Fixpoint toLowerCase (s : string) : string :=
  match s with
  | EmptyString => EmptyString
  | String c s' => String (lower_unit c) (toLowerCase s')
  end.

(** [s.startsWith(p)] *)
Fixpoint startsWith (s p : string) : bool :=
  match p, s with
  | EmptyString, _ => true
  | String _ _, EmptyString => false
  | String a p', String b s' => bool_decide (a = b) && startsWith s' p'
  end.

(** [s.includes(p)]: [p] starts at some position of [s]. *)
Fixpoint includes (s p : string) : bool :=
  startsWith s p ||
  match s with
  | EmptyString => false
  | String _ s' => includes s' p
  end.

(** [a === b] on strings. *)
Definition strict_eq (a b : string) : bool := bool_decide (a = b).

(** [x || d] where [x] is a string or undefined/null: the empty string is
    falsy, as is a missing value. *)
Definition or_else (x : option string) (d : string) : string :=
  match x with
  | Some (String c s) => String c s
  | Some EmptyString | None => d
  end.

(** The character class [[.!?]] and its complement [[^.!?]]. *)
Definition is_terminator (c : ascii) : bool :=
  bool_decide (c = "."%char) || bool_decide (c = "!"%char) ||
  bool_decide (c = "?"%char).

(** [[^.!?]+[.!?]] matched at the head of [s], as a backtracking matcher
    does it: after one character of the class [[^.!?]] the greedy [+]
    first tries to go on with the repetition, and only when that fails
    it leaves the repetition and tries [[.!?]].  The result is the text
    matched. *)
Fixpoint sentence_at (s : string) : option string :=
  match s with
  | EmptyString => None
  | String c rest =>
      if is_terminator c then None
      else match sentence_at rest with
           | Some m => Some (String c m)
           | None =>
               match rest with
               | String d _ =>
                   if is_terminator d
                   then Some (String c (String d EmptyString))
                   else None
               | EmptyString => None
               end
           end
  end.

(** [s.match(/^[^.!?]+[.!?]/)?.[0]]: the pattern is anchored at the
    start, so the only position tried is 0. *)
Definition match_first_sentence (s : string) : option string :=
  sentence_at s.

End Js.

(** ** The user record

    The Prisma schema is not part of the sources; the frontend's [User]
    interface gives the columns. *)
Module User.
Record t := mk {
  id : string;
  email : string;
  firstName : string;
  lastName : string;
  carPlate : option string;
}.
End User.

(** ** copilot-frontend/src/store/userSlice.ts *)

Module userSlice.

Record UserState := {
  user : option User.t;
  loading : bool;
  error : option string;
}.

Definition initialState : UserState :=
  {| user := None; loading := false; error := None |}.

(** Payload of [setUser]: [Omit<UserState, 'loading' | 'error'>]. *)
Record SetUserPayload := { payload_user : option User.t }.

(** The case reducers.  Each is written against an Immer draft and
    assigns one property; the next state is the draft with that property
    replaced. *)
Definition setUser (state : UserState) (payload : SetUserPayload) : UserState :=
  {| user := payload_user payload;
     loading := loading state;
     error := error state |}.

Definition setLoading (state : UserState) (payload : bool) : UserState :=
  {| user := user state;
     loading := payload;
     error := error state |}.

Definition setError (state : UserState) (payload : option string) : UserState :=
  {| user := user state;
     loading := loading state;
     error := payload |}.

(** The actions the slice exports, and the slice reducer
    [userSlice.reducer]: an action of another slice leaves the state as
    it is. *)
Inductive Action :=
| SetUser (payload : SetUserPayload)
| SetLoading (payload : bool)
| SetError (payload : option string)
| Other (type : string).

Definition reducer (state : UserState) (a : Action) : UserState :=
  match a with
  | SetUser p => setUser state p
  | SetLoading b => setLoading state b
  | SetError e => setError state e
  | Other _ => state
  end.

(** [store.dispatch(a)] for each action of a list in turn, from [state]. *)
Definition dispatch (state : UserState) (actions : list Action) : UserState :=
  fold_left reducer actions state.

(** The field of the state an action is about; none for an action of
    another slice. *)
Inductive Field := FUser | FLoading | FError.

Definition touches (a : Action) : option Field :=
  match a with
  | SetUser _ => Some FUser
  | SetLoading _ => Some FLoading
  | SetError _ => Some FError
  | Other _ => None
  end.

(** The payload of the last action of a list that [pick] accepts. *)
Fixpoint last_payload {A} (pick : Action → option A) (actions : list Action)
    : option A :=
  match actions with
  | [] => None
  | a :: rest =>
      match last_payload pick rest with
      | Some p => Some p
      | None => pick a
      end
  end.

Definition user_payload (a : Action) : option (option User.t) :=
  match a with SetUser p => Some (payload_user p) | _ => None end.

Definition loading_payload (a : Action) : option bool :=
  match a with SetLoading b => Some b | _ => None end.

Definition error_payload (a : Action) : option (option string) :=
  match a with SetError e => Some e | _ => None end.

End userSlice.


(** ** Backend data model *)

(** [interface ChatMessage] of conversationRoutes.ts. *)
Module ChatMessage.
Inductive Role := system | user | assistant.
Record t := mk { role : Role; content : string }.
End ChatMessage.

(** A row of the conversation table: the columns the routes write
    ([conversationId], [eventUserId], [sender], [message]) and the ones the
    store fills in (the key [id] and [createdAt]). *)
Module Conversation.
Record t := mk {
  id : string;
  conversationId : string;
  eventUserId : string;
  sender : string;
  message : string;
  createdAt : Z;
}.
End Conversation.

(** [orderBy: { createdAt: 'asc' }] *)
Definition created_le (a b : Conversation.t) : Prop :=
  Conversation.createdAt a ≤ Conversation.createdAt b.

#[global] Instance created_le_dec a b : Decision (created_le a b).
Proof. unfold created_le. apply _. Defined.

(** A row of the event-user table: its key and the keys of the user and of
    the event it relates. *)
Module EventUser.
Record t := mk { id : string; userId : string; eventId : string }.
End EventUser.

(** What a [catch (error)] clause receives: an ordinary error with its
    message, or an HTTP client error that may carry the body of the
    response ([error.response?.data]).  The body is kept as text; no
    property below depends on what the details of a 500 answer are. *)
Inductive Error :=
| JsError (message : string)
| HttpError (message : string) (data : option string).

Inductive outcome (A : Type) :=
| Return (a : A)
| Throw (e : Error).
Arguments Return {A} a.
Arguments Throw {A} e.

(** What the outside world answers during one request.
      - [now]: the clock the store reads for [createdAt];
      - [new_id]: the key the store generates for a created row;
      - [store_fault n]: whether the [n]-th store operation of the request
        fails (connection lost, constraint violated, ...);
      - [completion msgs]: the completion API's answer to the message list
        [msgs]: a failure of the HTTP call, or
        [response.data.choices[0]?.message?.content], absent or a string. *)
Record Env := {
  now : Z;
  new_id : string;
  store_fault : nat → bool;
  completion : list ChatMessage.t → outcome (option string);
}.

Section Routes.

(** The event table's columns are used by the message templates only. *)
Context {Event : Type}.

(** [messageTemplates] of ../utils/messageTemplates, which is not part of
    the sources: the routes are verified for any templates. *)
Record MessageTemplates := {
  initialGreeting : User.t → Event → ChatMessage.t;
  carRegistration : User.t → Event → ChatMessage.t;
  finalRecommendation : User.t → Event → ChatMessage.t;
  contactAdmin : User.t → Event → ChatMessage.t;
  errorResponse : ChatMessage.t;
}.

Variable messageTemplates : MessageTemplates.

Record DB := {
  users : gmap string User.t;
  events : gmap string Event;
  eventUsers : gmap string EventUser.t;
  conversations : list Conversation.t;
}.

(** The state a handler runs in: the store, the number of store
    operations the request has issued, and the message lists posted to
    the completion API so far. *)
Record World := {
  db : DB;
  store_calls : nat;
  outbox : list (list ChatMessage.t);
}.

(** *** The handler monad *)

Definition M (A : Type) : Type := World → outcome A * World.

#[local] Instance M_ret : MRet M := λ A a w, (Return a, w).

#[local] Instance M_bind : MBind M := λ A B f m w,
  match m w with
  | (Return a, w') => f a w'
  | (Throw e, w') => (Throw e, w')
  end.

Definition throw {A} (e : Error) : M A := λ w, (Throw e, w).

(** [try { body } catch (error) { handler }] *)
Definition try_catch {A} (body : M A) (handler : Error → M A) : M A := λ w,
  match body w with
  | (Return a, w') => (Return a, w')
  | (Throw e, w') => handler e w'
  end.

(** *** HTTP responses *)

Inductive Body :=
| JConversation (c : Conversation.t)
| JConversations (l : list Conversation.t)
| JError (error : string)
| JErrorDetails (error : string) (details : string)
| JMessage (message : string)
| JChatMessage (m : ChatMessage.t)
| JEventUser (eventUser : EventUser.t) (user : option User.t) (event : option Event)
| JNull.

Record Response := { status : nat; body : Body }.

(** What a handler leaves behind: the response it sent, if it sent one. *)
Definition Reply : Type := option Response.

(** [res.status(code).json(body)]; [res.json(body)] is sent with 200. *)
Definition res_json (code : nat) (b : Body) : M Reply :=
  mret (Some {| status := code; body := b |}).

(** *** The Prisma client *)

Definition prisma_failure : Error := JsError "PrismaClientKnownRequestError".

(** One store operation [await prisma.model.op(...)]: it is counted, fails
    when the environment says that this operation fails, and otherwise
    runs [op] on the store. *)
Definition prisma {A} (env : Env) (op : DB → outcome A * DB) : M A := λ w,
  let n := store_calls w in
  if store_fault env n
  then (Throw prisma_failure,
        {| db := db w; store_calls := S n; outbox := outbox w |})
  else
    let '(r, d) := op (db w) in
    (r, {| db := d; store_calls := S n; outbox := outbox w |}).

(** [prisma.conversation.create({ data })]: the row gets its key and its
    creation time from the store and is appended to the table. *)
Definition conversation_create (env : Env)
    (conversationId eventUserId sender message : string)
    (d : DB) : outcome Conversation.t * DB :=
  let c := Conversation.mk (new_id env) conversationId eventUserId sender
             message (now env) in
  (Return c,
   {| users := users d; events := events d; eventUsers := eventUsers d;
      conversations := conversations d ++ [c] |}).

(** [take: n], absent when the query has no [take]. *)
Definition take_rows {A} (n : option nat) (l : list A) : list A :=
  match n with
  | Some k => take k l
  | None => l
  end.

(** [prisma.conversation.findMany({ where: { eventUserId },
    orderBy: { createdAt: 'asc' }, take })]: the rows of the event user,
    sorted by creation time, cut to the first [take] of them.  The query
    does not say in which order rows of equal creation time come; the
    sort picks one, and no property below depends on which. *)
Definition conversation_findMany (eventUserId : string) (n : option nat)
    (d : DB) : outcome (list Conversation.t) * DB :=
  let rows :=
    filter (λ c, Conversation.eventUserId c = eventUserId) (conversations d) in
  (Return (take_rows n (merge_sort created_le rows)), d).

(** [include: { user, event }] of an event-user query, and the object the
    query returns: the row ([base]) with the related rows it included. *)
Record Include := { include_user : bool; include_event : bool }.

Record EventUserIncluded := {
  base : EventUser.t;
  user : option User.t;
  event : option Event;
}.

(** [prisma.eventUser.findUnique({ where: { id }, include })]: null when
    there is no such row; the related rows are looked up by their keys when
    the query includes them. *)
Definition eventUser_findUnique (id : string) (inc : Include)
    (d : DB) : outcome (option EventUserIncluded) * DB :=
  (Return
     (eu ← eventUsers d !! id;
      Some {| base := eu;
              user := if include_user inc
                      then users d !! EventUser.userId eu else None;
              event := if include_event inc
                       then events d !! EventUser.eventId eu else None |}),
   d).

Definition set_carPlate (carPlate : string) (u : User.t) : User.t :=
  User.mk (User.id u) (User.email u) (User.firstName u) (User.lastName u)
    (Some carPlate).

(** [prisma.user.update({ where: { id }, data: { carPlate } })]: fails when
    there is no row with this key, and otherwise replaces the column in
    that row. *)
Definition user_update (id carPlate : string)
    (d : DB) : outcome User.t * DB :=
  match users d !! id with
  | None => (Throw (JsError "Record to update not found"), d)
  | Some u =>
      let u' := set_carPlate carPlate u in
      (Return u',
       {| users := <[id := u']> (users d); events := events d;
          eventUsers := eventUsers d; conversations := conversations d |})
  end.

(** [axios.post(API_URL, { messages, ... })]: the message list goes out,
    and the API's answer comes back from the environment. *)
Definition axios_post (env : Env) (messages : list ChatMessage.t)
    : M (option string) := λ w,
  (completion env messages,
   {| db := db w; store_calls := store_calls w;
      outbox := outbox w ++ [messages] |}).

(** *** POST /smart-response: the template heuristics *)

(** [aiMessage.toLowerCase().includes(phrase)] *)
Definition mentions (aiMessage phrase : string) : bool :=
  Js.includes (Js.toLowerCase aiMessage) phrase.

(** The conditions of the [if ... else if ...] chain, in its order. *)
Definition asks_car_registration (aiMessage : string) : bool :=
  (mentions aiMessage "provide your license plate" ||
   mentions aiMessage "register your vehicle") &&
  negb (mentions aiMessage "already have your").

Definition gives_final_recommendation (aiMessage : string) : bool :=
  mentions aiMessage "customized cards for visualization" &&
  (mentions aiMessage "your final parking details" ||
   mentions aiMessage "here is your final parking details" ||
   mentions aiMessage "view interactive map").

Definition refers_to_admin (aiMessage : string) : bool :=
  mentions aiMessage "contact the event organizer" ||
  mentions aiMessage "meeting information incorrect".

Definition answers_special_needs (aiMessage : string) : bool :=
  mentions aiMessage "parking" &&
  mentions aiMessage "recommend" &&
  (mentions aiMessage "pregnant" ||
   mentions aiMessage "injury" ||
   mentions aiMessage "accessibility").

(** The line feed of the template literal. *)
Definition LF : string := String "010"%char EmptyString.

(** [aiMessage.match(/^[^.!?]+[.!?]/)?.[0] || aiMessage] *)
Definition firstSentence (aiMessage : string) : string :=
  Js.or_else (Js.match_first_sentence aiMessage) aiMessage.

(** [`${firstSentence}\n\n${messageTemplates.finalRecommendation(user,
    event).content}`] *)
Definition special_needs_message (user : User.t) (event : Event)
    (aiMessage : string) : string :=
  firstSentence aiMessage +:+ LF +:+ LF +:+
  ChatMessage.content (finalRecommendation messageTemplates user event).

(** The value of [finalMessage] after the chain. *)
Definition finalMessage (user : User.t) (event : Event)
    (aiMessage : string) : string :=
  if asks_car_registration aiMessage then
    ChatMessage.content (carRegistration messageTemplates user event)
  else if gives_final_recommendation aiMessage then
    ChatMessage.content (finalRecommendation messageTemplates user event)
  else if refers_to_admin aiMessage then
    ChatMessage.content (contactAdmin messageTemplates user event)
  else if answers_special_needs aiMessage then
    special_needs_message user event aiMessage
  else
    aiMessage.

(** *** The route handlers *)

(** [router.post('/')] *)
Definition post_conversation (env : Env)
    (eventUserId sender message : string) : M Reply :=
  try_catch
    (conversation ←
       prisma env (conversation_create env eventUserId eventUserId
                     sender message);
     res_json 201 (JConversation conversation))
    (λ error, res_json 500 (JError "Failed to create conversation")).

(** [router.get('/:eventUserId')] *)
Definition get_conversations (env : Env) (eventUserId : string) : M Reply :=
  try_catch
    (conversations ← prisma env (conversation_findMany eventUserId None);
     res_json 200 (JConversations conversations))
    (λ error, res_json 500 (JError "Failed to fetch conversations")).

(** [msg => ({ role: msg.sender === 'user' ? 'user' : 'assistant',
    content: msg.message })] *)
Definition format_history (msg : Conversation.t) : ChatMessage.t :=
  ChatMessage.mk
    (if Js.strict_eq (Conversation.sender msg) "user"
     then ChatMessage.user else ChatMessage.assistant)
    (Conversation.message msg).

(** The [messages] array of the smart-response handler. *)
Definition build_messages (user : User.t) (event : Event)
    (conversationHistory : list Conversation.t) (message : string)
    : list ChatMessage.t :=
  [initialGreeting messageTemplates user event] ++
  map format_history conversationHistory ++
  [ChatMessage.mk ChatMessage.user message].

(** [error.response?.data || error.message] *)
Definition error_details (e : Error) : string :=
  match e with
  | JsError m => m
  | HttpError m data => Js.or_else data m
  end.

(** [router.post('/smart-response')] *)
Definition post_smart_response (env : Env)
    (eventUserId message : string) : M Reply :=
  try_catch
    (eventUser ←
       prisma env (eventUser_findUnique eventUserId
                     {| include_user := true; include_event := true |});
     '(user, event) ←
       match eventUser with
       | Some {| user := Some u; event := Some e |} => mret (u, e)
       | _ => throw (JsError "Event user data not found")
       end;
     conversationHistory ←
       prisma env (conversation_findMany eventUserId (Some 10%nat));
     let messages := build_messages user event conversationHistory message in
     content ← axios_post env messages;
     let aiMessage := Js.or_else content "" in
     let finalMessage := finalMessage user event aiMessage in
     _ ← prisma env (conversation_create env eventUserId eventUserId
                       "bot" finalMessage);
     res_json 200 (JMessage finalMessage))
    (λ error,
       res_json 500 (JErrorDetails "Failed to get AI response"
                       (error_details error))).

(** [router.post('/chat')].  [message] is the body's [message] when that is
    a string; on anything else the call of [toLowerCase] throws. *)
Definition post_chat (message : option string) (user : User.t)
    (event : Event) : M Reply :=
  try_catch
    (lowered ←
       match message with
       | Some s => mret (Js.toLowerCase s)
       | None => throw (JsError "message.toLowerCase is not a function")
       end;
     if Js.strict_eq lowered "no"
     then res_json 200 (JChatMessage (contactAdmin messageTemplates user event))
     else mret None)
    (λ error, res_json 500 (JChatMessage (errorResponse messageTemplates))).

(** [res.json(x)] for the result of an event-user query. *)
Definition json_eventUser (x : option EventUserIncluded) : Body :=
  match x with
  | Some r => JEventUser (base r) (user r) (event r)
  | None => JNull
  end.

(** [router.post('/register-plate')] *)
Definition post_register_plate (env : Env)
    (eventUserId carPlate : string) : M Reply :=
  try_catch
    (eventUser ←
       prisma env (eventUser_findUnique eventUserId
                     {| include_user := true; include_event := false |});
     match eventUser with
     | None => res_json 404 (JError "Event user not found")
     | Some found =>
         updatedUser ←
           prisma env (user_update (EventUser.userId (base found))
                         carPlate);
         updatedEventUser ←
           prisma env (eventUser_findUnique eventUserId
                         {| include_user := true; include_event := true |});
         res_json 200 (json_eventUser updatedEventUser)
     end)
    (λ error, res_json 500 (JError "Failed to register car plate")).

(** *** The router *)

(** The requests the router has a handler for, with the fields of the body
    or of the path each handler reads. *)
Inductive Request :=
| PostConversation (eventUserId sender message : string)
| GetConversations (eventUserId : string)
| PostSmartResponse (eventUserId message : string)
| PostChat (message : option string) (user : User.t) (event : Event)
| PostRegisterPlate (eventUserId carPlate : string).

Definition router (env : Env) (req : Request) : M Reply :=
  match req with
  | PostConversation eventUserId sender message =>
      post_conversation env eventUserId sender message
  | GetConversations eventUserId =>
      get_conversations env eventUserId
  | PostSmartResponse eventUserId message =>
      post_smart_response env eventUserId message
  | PostChat message user event =>
      post_chat message user event
  | PostRegisterPlate eventUserId carPlate =>
      post_register_plate env eventUserId carPlate
  end.

(** A request starts with no store operation issued and nothing posted. *)
Definition on_store (d : DB) : World :=
  {| db := d; store_calls := 0; outbox := [] |}.

(** The store after a sequence of requests, each with the environment it
    met. *)
Fixpoint serve (reqs : list (Env * Request)) (d : DB) : DB :=
  match reqs with
  | [] => d
  | (env, req) :: reqs' => serve reqs' (db (router env req (on_store d)).2)
  end.

(** *** Vocabulary of the specification *)

(** "either the model's reply kept unchanged or one of the canned
    templates (carRegistration, finalRecommendation, contactAdmin)" *)
Definition kept_or_canned (user : User.t) (event : Event)
    (aiMessage final : string) : Prop :=
  final = aiMessage ∨
  final = ChatMessage.content (carRegistration messageTemplates user event) ∨
  final = ChatMessage.content (finalRecommendation messageTemplates user event) ∨
  final = ChatMessage.content (contactAdmin messageTemplates user event).

(** "a fixed sequence evaluated first-match-wins": a list of conditions
    with the message each one selects, tried in order; without a match the
    reply is kept. *)
Fixpoint first_match_wins (rules : list ((string → bool) * (string → string)))
    (aiMessage : string) : string :=
  match rules with
  | [] => aiMessage
  | (holds, selects) :: rules' =>
      if holds aiMessage then selects aiMessage
      else first_match_wins rules' aiMessage
  end.

(** "the car-registration condition is tested first, then the
    final-recommendation condition, then the contact-admin condition, then
    the special-needs condition" *)
Definition heuristics (user : User.t) (event : Event)
    : list ((string → bool) * (string → string)) :=
  [ (asks_car_registration,
     λ _, ChatMessage.content (carRegistration messageTemplates user event));
    (gives_final_recommendation,
     λ _, ChatMessage.content (finalRecommendation messageTemplates user event));
    (refers_to_admin,
     λ _, ChatMessage.content (contactAdmin messageTemplates user event));
    (answers_special_needs, special_needs_message user event) ].

(** "its conversationId field equal to its eventUserId field" *)
Definition grouped_by_event_user (c : Conversation.t) : Prop :=
  Conversation.conversationId c = Conversation.eventUserId c.

(** "the associated user": in the relational store the [userId] of an
    event user is a foreign key into the user table. *)
Definition user_foreign_key (d : DB) : Prop :=
  map_Forall (λ _ eu, is_Some (users d !! EventUser.userId eu)) (eventUsers d).

(** A user record after some requests, next to the record before them:
    the same identity. *)
Definition same_identity (u u' : User.t) : Prop :=
  User.id u' = User.id u ∧
  User.email u' = User.email u ∧
  User.firstName u' = User.firstName u ∧
  User.lastName u' = User.lastName u.

(** The stored conversation records of an event user. *)
Definition stored_for (eventUserId : string) (d : DB) : list Conversation.t :=
  filter (λ c, Conversation.eventUserId c = eventUserId) (conversations d).

End Routes.

Arguments MessageTemplates : clear implicits.
Arguments DB : clear implicits.
Arguments World : clear implicits.
Arguments Request : clear implicits.

(** ** Sample data: an event with one registered user *)

Module Sample.

(** Templates to run the routes with; an event is known by its name
    here. *)
Definition templates : MessageTemplates string := {|
  initialGreeting u e :=
    ChatMessage.mk ChatMessage.system
      ("You coordinate parking for " +:+ e +:+ ". Greet " +:+
       User.firstName u +:+ ".");
  carRegistration u e :=
    ChatMessage.mk ChatMessage.assistant
      ("Hi " +:+ User.firstName u +:+ ", what is your plate number?");
  finalRecommendation u e :=
    ChatMessage.mk ChatMessage.assistant
      ("Your parking for " +:+ e +:+ " is lot P1.");
  contactAdmin u e :=
    ChatMessage.mk ChatMessage.assistant
      ("Please write to the organizer of " +:+ e +:+ ".");
  errorResponse :=
    ChatMessage.mk ChatMessage.assistant "Something went wrong.";
|}.

Definition ada : User.t :=
  User.mk "u1" "ada@example.org" "Ada" "Byron" None.

Definition row (id sender message : string) (createdAt : Z) : Conversation.t :=
  Conversation.mk id "eu1" "eu1" sender message createdAt.

Definition store : DB string := {|
  users := {[ "u1" := ada ]};
  events := {[ "e1" := "Expo" ]};
  eventUsers := {[ "eu1" := EventUser.mk "eu1" "u1" "e1" ]};
  conversations :=
    [ row "c2" "bot" "Which lot do you prefer?" 20;
      Conversation.mk "c9" "eu2" "eu2" "user" "Hello" 15;
      row "c1" "user" "Where can I park?" 10 ];
|}.

(** An environment in which the store works and the completion API
    answers [reply] to whatever it is sent. *)
Definition env (reply : string) : Env := {|
  now := 30;
  new_id := "c3";
  store_fault := λ _, false;
  completion := λ _, Return (Some reply);
|}.

(** An environment in which every store operation fails. *)
Definition env_store_down : Env := {|
  now := 30;
  new_id := "c3";
  store_fault := λ _, true;
  completion := λ _, Return None;
|}.

Definition special_needs_reply : string :=
  "For your injury I recommend parking near the lift. It is on level 1.".

(** The same event user after a longer exchange: twelve messages, created
    at times 1 to 12 and stored in no particular order. *)
Definition turn (n : Z) : Conversation.t :=
  row ("m" +:+ pretty n) (if Z.even n then "bot" else "user")
    ("turn " +:+ pretty n) n.

Definition long_store : DB string := {|
  users := users store;
  events := events store;
  eventUsers := eventUsers store;
  conversations := turn <$> [7; 12; 3; 1; 10; 5; 2; 11; 8; 4; 9; 6];
|}.

(** A store whose only event user refers to a user that is not there. *)
Definition orphan_store : DB string := {|
  users := ∅;
  events := events store;
  eventUsers := {[ "eu1" := EventUser.mk "eu1" "u9" "e1" ]};
  conversations := [];
|}.

(** An environment in which the store works and the completion API is
    unreachable. *)
Definition env_api_down : Env := {|
  now := 30;
  new_id := "c3";
  store_fault := λ _, false;
  completion := λ _, Throw (HttpError "Request failed" (Some "rate limited"));
|}.

(** An environment in which the completion API answers without content. *)
Definition env_no_content : Env := {|
  now := 30;
  new_id := "c3";
  store_fault := λ _, false;
  completion := λ _, Return None;
|}.

End Sample.

(** * Properties *)

(** ** The user slice *)

(** C7: in the user-state slice each reducer changes only its own field:
    [setUser] leaves [loading] and [error] as they were, [setLoading]
    leaves [user] and [error], [setError] leaves [user] and [loading]; each
    stores its payload; a state is determined by its three fields [user],
    [loading] and [error]; and the initial state is
    [{user: null, loading: false, error: null}]. *)
Theorem userSlice_reducers_frame :
  (∀ state payload,
     userSlice.loading (userSlice.setUser state payload)
       = userSlice.loading state ∧
     userSlice.error (userSlice.setUser state payload)
       = userSlice.error state ∧
     userSlice.user (userSlice.setUser state payload)
       = userSlice.payload_user payload) ∧
  (∀ state payload,
     userSlice.user (userSlice.setLoading state payload)
       = userSlice.user state ∧
     userSlice.error (userSlice.setLoading state payload)
       = userSlice.error state ∧
     userSlice.loading (userSlice.setLoading state payload) = payload) ∧
  (∀ state payload,
     userSlice.user (userSlice.setError state payload)
       = userSlice.user state ∧
     userSlice.loading (userSlice.setError state payload)
       = userSlice.loading state ∧
     userSlice.error (userSlice.setError state payload) = payload) ∧
  (∀ s1 s2,
     userSlice.user s1 = userSlice.user s2 →
     userSlice.loading s1 = userSlice.loading s2 →
     userSlice.error s1 = userSlice.error s2 →
     s1 = s2) ∧
  userSlice.user userSlice.initialState = None ∧
  userSlice.loading userSlice.initialState = false ∧
  userSlice.error userSlice.initialState = None.
Proof.
  repeat split.
  intros [u1 l1 e1] [u2 l2 e2]; simpl; congruence.
Qed.

(** Through the slice reducer, an action touches at most the field of its
    own case reducer. *)
Lemma userSlice_reducer_frame state a :
  match a with
  | userSlice.SetUser _ =>
      userSlice.loading (userSlice.reducer state a) = userSlice.loading state ∧
      userSlice.error (userSlice.reducer state a) = userSlice.error state
  | userSlice.SetLoading _ =>
      userSlice.user (userSlice.reducer state a) = userSlice.user state ∧
      userSlice.error (userSlice.reducer state a) = userSlice.error state
  | userSlice.SetError _ =>
      userSlice.user (userSlice.reducer state a) = userSlice.user state ∧
      userSlice.loading (userSlice.reducer state a) = userSlice.loading state
  | userSlice.Other _ => userSlice.reducer state a = state
  end.
Proof. destruct a; simpl; auto. Qed.

(** ** The conversation routes *)

Section RoutesCorrect.

Context {Event : Type} (T : MessageTemplates Event).

Implicit Types (w : World Event) (d : DB Event) (env : Env).

(** Unfolding a handler down to the store operations. *)
Ltac run_handler :=
  unfold post_conversation, get_conversations, post_smart_response,
    post_chat, post_register_plate, try_catch, res_json, throw, prisma,
    axios_post, mbind, M_bind, mret, M_ret;
  simpl.

(** The handler cannot have got as far as the API call. *)
Ltac unreachable :=
  let eu := fresh "eu" in
  let Heu := fresh "Heu" in
  intros (eu & ? & ? & Heu & ? & ? & ? & ?);
  repeat match goal with
         | H : eventUsers _ !! _ = Some _ |- _ =>
             rewrite H in Heu; injection Heu as <-
         end;
  congruence.

#[local] Instance created_le_total : Total created_le.
Proof. intros a b. unfold created_le. lia. Qed.

#[local] Instance created_le_trans : Transitive created_le.
Proof. intros a b c. unfold created_le. lia. Qed.

(** What the conversation query with [orderBy] and no [take] returns. *)
Lemma findMany_all eventUserId d :
  ∃ rows,
    conversation_findMany eventUserId None d = (Return rows, d) ∧
    rows ≡ₚ stored_for eventUserId d ∧
    StronglySorted created_le rows.
Proof.
  eexists. split; [reflexivity|]. simpl. split.
  - apply merge_sort_Permutation.
  - apply Sorted_StronglySorted; [apply _|]. apply Sorted_merge_sort, _.
Qed.

(** C5: POST / stores one conversation record whose eventUserId, sender
    and message are the supplied ones and responds 201 with that record;
    when the store operation fails it responds 500 with the error 'Failed to
    create conversation', returns no record and stores none. *)
Theorem post_conversation_creates_or_fails env eventUserId sender message w :
  let run := post_conversation env eventUserId sender message w in
  if store_fault env (store_calls w)
  then
    run.1 = Return (Some {| status := 500;
                            body := JError "Failed to create conversation" |}) ∧
    db run.2 = db w
  else
    ∃ c,
      run.1 = Return (Some {| status := 201; body := JConversation c |}) ∧
      Conversation.eventUserId c = eventUserId ∧
      Conversation.sender c = sender ∧
      Conversation.message c = message ∧
      conversations (db run.2) = conversations (db w) ++ [c] ∧
      users (db run.2) = users (db w) ∧
      events (db run.2) = events (db w) ∧
      eventUsers (db run.2) = eventUsers (db w).
Proof.
  run_handler. destruct (store_fault env (store_calls w)); simpl.
  - done.
  - eexists. repeat split.
Qed.

(** C6: GET /:eventUserId, when the query succeeds, responds with exactly
    the stored conversation records whose eventUserId is the path
    parameter (every one of them, as often as it is stored, and no other),
    in ascending order of creation time; the store is left unchanged. *)
Theorem get_conversations_returns_history env eventUserId w :
  store_fault env (store_calls w) = false →
  ∃ rows,
    (get_conversations env eventUserId w).1
      = Return (Some {| status := 200; body := JConversations rows |}) ∧
    rows ≡ₚ filter (λ c, Conversation.eventUserId c = eventUserId)
              (conversations (db w)) ∧
    (∀ c, c ∈ rows ↔
          c ∈ conversations (db w) ∧ Conversation.eventUserId c = eventUserId) ∧
    StronglySorted
      (λ a b, Conversation.createdAt a ≤ Conversation.createdAt b) rows ∧
    db (get_conversations env eventUserId w).2 = db w.
Proof.
  intros Hok. run_handler. rewrite Hok.
  destruct (findMany_all eventUserId (db w)) as (rows & Hq & Hperm & Hsorted).
  simpl in Hq. injection Hq as Hq. rewrite Hq.
  exists rows. simpl. split; [done|]. split; [done|]. split; [|done].
  intros c. rewrite Hperm. unfold stored_for.
  rewrite list_elem_of_filter. tauto.
Qed.

(** C10: POST /chat sends a response in two cases only: the contactAdmin
    template when the lower-cased message is 'no', and 500 with the
    errorResponse template when an error is thrown; for every other
    message the handler completes without sending a response.  The store
    is not touched. *)
Theorem post_chat_responses message user event w :
  post_chat T message user event w =
    (Return
       match message with
       | None =>
           Some {| status := 500; body := JChatMessage (errorResponse T) |}
       | Some s =>
           if bool_decide (Js.toLowerCase s = "no")
           then Some {| status := 200;
                        body := JChatMessage (contactAdmin T user event) |}
           else None
       end,
     w).
Proof.
  run_handler. destruct message as [s|]; simpl; [|done].
  unfold Js.strict_eq. by destruct (bool_decide (Js.toLowerCase s = "no")).
Qed.

(** Every way the smart-response handler can run: it fails before anything
    is posted, or it posts one message list and then either fails or
    stores and returns the final message. *)
Lemma smart_response_run env eventUserId message w :
  let run := post_smart_response T env eventUserId message w in
  let n := store_calls w in
  (db run.2 = db w ∧ outbox run.2 = outbox w ∧
   (∃ details,
      run.1 = Return (Some {| status := 500;
                body := JErrorDetails "Failed to get AI response" details |})) ∧
   ¬ ∃ eu u e,
       eventUsers (db w) !! eventUserId = Some eu ∧
       users (db w) !! EventUser.userId eu = Some u ∧
       events (db w) !! EventUser.eventId eu = Some e ∧
       store_fault env n = false ∧
       store_fault env (S n) = false)
  ∨
  ∃ eu u e history,
    eventUsers (db w) !! eventUserId = Some eu ∧
    users (db w) !! EventUser.userId eu = Some u ∧
    events (db w) !! EventUser.eventId eu = Some e ∧
    store_fault env n = false ∧
    store_fault env (S n) = false ∧
    history = take 10 (merge_sort created_le (stored_for eventUserId (db w))) ∧
    outbox run.2 = outbox w ++ [build_messages T u e history message] ∧
    ((db run.2 = db w ∧
      ∃ details,
        run.1 = Return (Some {| status := 500;
                  body := JErrorDetails "Failed to get AI response" details |}))
     ∨
     ∃ content,
       completion env (build_messages T u e history message) = Return content ∧
       store_fault env (S (S n)) = false ∧
       let final := finalMessage T u e (Js.or_else content "") in
       run.1 = Return (Some {| status := 200; body := JMessage final |}) ∧
       conversations (db run.2) =
         conversations (db w) ++
         [Conversation.mk (new_id env) eventUserId eventUserId "bot" final
            (now env)] ∧
       users (db run.2) = users (db w) ∧
       events (db run.2) = events (db w) ∧
       eventUsers (db run.2) = eventUsers (db w)).
Proof.
  run_handler.
  destruct (store_fault env (store_calls w)) eqn:F0; simpl.
  { left. do 2 (split; [done|]). split; [eauto|]. unreachable. }
  destruct (eventUsers (db w) !! eventUserId) as [eu|] eqn:Heu; simpl.
  2:{ left. do 2 (split; [done|]). split; [eauto|]. unreachable. }
  destruct (users (db w) !! EventUser.userId eu) as [u|] eqn:Hu; simpl.
  2:{ left. do 2 (split; [done|]). split; [eauto|]. unreachable. }
  destruct (events (db w) !! EventUser.eventId eu) as [e|] eqn:He; simpl.
  2:{ left. do 2 (split; [done|]). split; [eauto|]. unreachable. }
  destruct (store_fault env (S (store_calls w))) eqn:F1; simpl.
  { left. do 2 (split; [done|]). split; [eauto|]. unreachable. }
  right. exists eu, u, e. eexists. 
  do 6 (split; [first [reflexivity | assumption]|]).
  fold (stored_for eventUserId (db w)).
  destruct (completion env _) as [content|err] eqn:Hc; simpl.
  2:{ split; [reflexivity|]. left. eauto. }
  destruct (store_fault env (S (S (store_calls w)))) eqn:F2; simpl.
  { split; [reflexivity|]. left. eauto. }
  split; [reflexivity|]. right. exists content. repeat split.
Qed.

(** Every branch of the chain yields the reply, a canned template, or the
    special-needs combination. *)
Lemma finalMessage_cases user event aiMessage :
  kept_or_canned T user event aiMessage (finalMessage T user event aiMessage) ∨
  (answers_special_needs aiMessage = true ∧
   finalMessage T user event aiMessage
     = special_needs_message T user event aiMessage).
Proof.
  unfold finalMessage, kept_or_canned.
  destruct (asks_car_registration aiMessage); [tauto|].
  destruct (gives_final_recommendation aiMessage); [tauto|].
  destruct (refers_to_admin aiMessage); [tauto|].
  destruct (answers_special_needs aiMessage); tauto.
Qed.

(** C1, as the code has it: whenever POST /smart-response stores and
    returns a final message, the completion API produced a reply, the
    message stored is the message returned, and it is the reply kept
    unchanged, or one of the canned templates carRegistration,
    finalRecommendation, contactAdmin, or - for a reply the special-needs
    condition accepts - the first sentence of the reply, a blank line, and
    the finalRecommendation template. *)
Theorem smart_response_final_message env eventUserId message w final :
  (post_smart_response T env eventUserId message w).1
    = Return (Some {| status := 200; body := JMessage final |}) →
  ∃ eu u e history content,
    eventUsers (db w) !! eventUserId = Some eu ∧
    users (db w) !! EventUser.userId eu = Some u ∧
    events (db w) !! EventUser.eventId eu = Some e ∧
    completion env (build_messages T u e history message) = Return content ∧
    conversations (db (post_smart_response T env eventUserId message w).2)
      = conversations (db w) ++
        [Conversation.mk (new_id env) eventUserId eventUserId "bot" final
           (now env)] ∧
    let aiMessage := Js.or_else content "" in
    kept_or_canned T u e aiMessage final ∨
    (answers_special_needs aiMessage = true ∧
     final = firstSentence aiMessage +:+ LF +:+ LF +:+
             ChatMessage.content (finalRecommendation T u e)).
Proof.
  intros Hrun.
  destruct (smart_response_run env eventUserId message w)
    as [(_ & _ & (details & Hfail) & _)
       |(eu & u & e & history & Heu & Hu & He & _ & _ & _ & _ & Hrest)].
  { simpl in Hfail. congruence. }
  destruct Hrest as [(_ & details & Hfail)
                    |(content & Hc & _ & Hok & Hconv & _)].
  { simpl in Hfail. congruence. }
  simpl in Hok, Hconv. rewrite Hok in Hrun.
  injection Hrun as Hfinal. rewrite Hfinal in Hconv.
  exists eu, u, e, history, content.
  do 5 (split; [assumption|]). simpl. rewrite <- Hfinal.
  apply finalMessage_cases.
Qed.

(** C2: the template heuristics are a fixed first-match-wins sequence:
    car registration, then final recommendation, then contact admin, then
    special needs; the first condition that holds determines the final
    message, and when none holds the model's reply is kept unchanged. *)
Theorem finalMessage_first_match_wins user event aiMessage :
  finalMessage T user event aiMessage
    = first_match_wins (heuristics T user event) aiMessage ∧
  (asks_car_registration aiMessage = true →
   finalMessage T user event aiMessage
     = ChatMessage.content (carRegistration T user event)) ∧
  (asks_car_registration aiMessage = false →
   gives_final_recommendation aiMessage = true →
   finalMessage T user event aiMessage
     = ChatMessage.content (finalRecommendation T user event)) ∧
  (asks_car_registration aiMessage = false →
   gives_final_recommendation aiMessage = false →
   refers_to_admin aiMessage = true →
   finalMessage T user event aiMessage
     = ChatMessage.content (contactAdmin T user event)) ∧
  (asks_car_registration aiMessage = false →
   gives_final_recommendation aiMessage = false →
   refers_to_admin aiMessage = false →
   answers_special_needs aiMessage = true →
   finalMessage T user event aiMessage
     = firstSentence aiMessage +:+ LF +:+ LF +:+
       ChatMessage.content (finalRecommendation T user event)) ∧
  (asks_car_registration aiMessage = false →
   gives_final_recommendation aiMessage = false →
   refers_to_admin aiMessage = false →
   answers_special_needs aiMessage = false →
   finalMessage T user event aiMessage = aiMessage).
Proof.
  unfold finalMessage, heuristics, first_match_wins, special_needs_message.
  repeat split; intros; repeat case_match; congruence.
Qed.

(** C3: whatever POST /smart-response posts to the completion API is one
    message list: the initial-greeting template, then the fetched
    conversation history in order, each message with role 'user' when its
    sender is 'user' and role 'assistant' otherwise, then the new user
    message.  The list is posted whenever the event user is found with
    its user and its event and the two queries succeed. *)
Theorem smart_response_messages_sent env eventUserId message w :
  let run := post_smart_response T env eventUserId message w in
  let request u e history :=
    [initialGreeting T u e] ++
    map (λ msg,
           ChatMessage.mk
             (if bool_decide (Conversation.sender msg = "user")
              then ChatMessage.user else ChatMessage.assistant)
             (Conversation.message msg))
        history ++
    [ChatMessage.mk ChatMessage.user message] in
  let posted eu u e history :=
    eventUsers (db w) !! eventUserId = Some eu ∧
    users (db w) !! EventUser.userId eu = Some u ∧
    events (db w) !! EventUser.eventId eu = Some e ∧
    (conversation_findMany eventUserId (Some 10%nat) (db w)).1
      = Return history ∧
    outbox run.2 = outbox w ++ [request u e history] in
  (outbox run.2 = outbox w ∨ ∃ eu u e history, posted eu u e history) ∧
  (∀ eu u e,
     eventUsers (db w) !! eventUserId = Some eu →
     users (db w) !! EventUser.userId eu = Some u →
     events (db w) !! EventUser.eventId eu = Some e →
     store_fault env (store_calls w) = false →
     store_fault env (S (store_calls w)) = false →
     ∃ history, posted eu u e history).
Proof.
  intros run request posted.
  destruct (smart_response_run env eventUserId message w)
    as [(_ & Hout & _ & Hnot)
       |(eu & u & e & history & Heu & Hu & He & F0 & F1 & Hh & Hout & _)].
  - split; [by left|].
    intros eu u e Heu Hu He F0 F1. destruct Hnot. by exists eu, u, e.
  - assert (posted eu u e history) as Hposted.
    { unfold posted. do 3 (split; [assumption|]). split.
      - simpl. by rewrite Hh.
      - exact Hout. }
    split; [right; by exists eu, u, e, history|].
    intros eu' u' e' Heu' Hu' He' _ _.
    assert (eu' = eu) as -> by congruence.
    assert (u' = u) as -> by congruence.
    assert (e' = e) as -> by congruence.
    by exists history.
Qed.

(** C4: POST /register-plate, on a working relational store.  When no
    event-user record has the given eventUserId, the route responds 404 and
    the store, so every user record, is as it was.  When the record
    exists, the user it refers to gets the supplied value as carPlate -
    the user's other fields, the other users and the other tables are as
    they were - and the route responds with the event user together with
    the updated user and the event. *)
Theorem register_plate_sets_car_plate env eventUserId carPlate w :
  (∀ k, store_fault env k = false) →
  user_foreign_key (db w) →
  let run := post_register_plate env eventUserId carPlate w in
  match eventUsers (db w) !! eventUserId with
  | None =>
      run.1 = Return (Some {| status := 404;
                              body := JError "Event user not found" |}) ∧
      users (db run.2) = users (db w) ∧
      db run.2 = db w
  | Some eu =>
      ∃ u, users (db w) !! EventUser.userId eu = Some u ∧
        let updated :=
          User.mk (User.id u) (User.email u) (User.firstName u)
            (User.lastName u) (Some carPlate) in
        users (db run.2) !! EventUser.userId eu = Some updated ∧
        (∀ k, k ≠ EventUser.userId eu →
              users (db run.2) !! k = users (db w) !! k) ∧
        events (db run.2) = events (db w) ∧
        eventUsers (db run.2) = eventUsers (db w) ∧
        conversations (db run.2) = conversations (db w) ∧
        run.1 = Return (Some {| status := 200;
                  body := JEventUser eu (Some updated)
                            (events (db w) !! EventUser.eventId eu) |})
  end.
Proof.
  intros Hok Hfk run. subst run. run_handler. rewrite !Hok. simpl.
  destruct (eventUsers (db w) !! eventUserId) as [eu|] eqn:Heu; simpl.
  - destruct (Hfk eventUserId eu Heu) as [u Hu]. exists u.
    split; [exact Hu|].
    unfold user_update. rewrite Hu. simpl.
    rewrite !Hok. simpl. rewrite Heu. simpl.
    rewrite lookup_insert_eq.
    repeat split; try reflexivity.
    intros k Hk. by rewrite lookup_insert_ne.
  - done.
Qed.

(** X14: when the event user refers to no user record, the update fails
    and POST /register-plate responds 500 'Failed to register car plate'
    with the store as it was. *)
Lemma register_plate_dangling_user env eventUserId carPlate w eu :
  (∀ k, store_fault env k = false) →
  eventUsers (db w) !! eventUserId = Some eu →
  users (db w) !! EventUser.userId eu = None →
  (post_register_plate env eventUserId carPlate w).1
    = Return (Some {| status := 500;
                      body := JError "Failed to register car plate" |}) ∧
  db (post_register_plate env eventUserId carPlate w).2 = db w.
Proof.
  intros Hok Heu Hu. run_handler. rewrite !Hok. simpl. rewrite Heu. simpl.
  unfold user_update. rewrite Hu. simpl. rewrite !Hok. done.
Qed.

(** One request appends to the conversation table, and what it appends
    has its conversationId equal to its eventUserId. *)
Lemma router_appends_grouped env req w :
  ∃ added,
    conversations (db (router T env req w).2) = conversations (db w) ++ added ∧
    Forall grouped_by_event_user added.
Proof.
  assert (∀ l : list Conversation.t,
            ∃ added, l = l ++ added ∧ Forall grouped_by_event_user added)
    as Hnone.
  { intros l. exists []. by rewrite app_nil_r. }
  destruct req as [eventUserId sender message|eventUserId|eventUserId message
                  |message user event|eventUserId carPlate]; simpl.
  - run_handler. destruct (store_fault env (store_calls w)); simpl; [done|].
    eexists. split; [reflexivity|]. by repeat constructor.
  - run_handler. destruct (store_fault env (store_calls w)); simpl; done.
  - destruct (smart_response_run env eventUserId message w)
      as [(Hdb & _)|(eu & u & e & history & _ & _ & _ & _ & _ & _ & _ & Hrest)].
    { simpl in Hdb. rewrite Hdb. done. }
    destruct Hrest as [(Hdb & _)|(content & _ & _ & _ & Hconv & _)].
    { simpl in Hdb. rewrite Hdb. done. }
    simpl in Hconv. rewrite Hconv.
    eexists. split; [reflexivity|]. by repeat constructor.
  - run_handler. destruct message as [s|]; simpl; [|done].
    destruct (Js.strict_eq (Js.toLowerCase s) "no"); done.
  - run_handler.
    destruct (store_fault env (store_calls w)); simpl; [done|].
    destruct (eventUsers (db w) !! eventUserId) as [eu|]; simpl; [|done].
    destruct (store_fault env (S (store_calls w))); simpl; [done|].
    unfold user_update.
    destruct (users (db w) !! EventUser.userId eu); simpl; [|done].
    destruct (store_fault env (S (S (store_calls w)))); simpl; done.
Qed.

(** C8: every conversation record the conversation routes insert - by the
    POST / create handler or by the smart-response handler, over any
    sequence of requests - has its conversationId equal to its
    eventUserId. *)
Theorem inserted_records_grouped (reqs : list (Env * Request Event)) d :
  ∃ inserted,
    conversations (serve T reqs d) = conversations d ++ inserted ∧
    Forall (λ c, Conversation.conversationId c = Conversation.eventUserId c)
      inserted.
Proof.
  revert d. induction reqs as [|[env req] reqs IH]; intros d; simpl.
  - exists []. by rewrite app_nil_r.
  - destruct (router_appends_grouped env req (on_store d))
      as (first & Hfirst & Hgrouped).
    destruct (IH (db (router T env req (on_store d)).2))
      as (later & Hlater & Hlater_grouped).
    exists (first ++ later). split.
    + rewrite Hlater, Hfirst. simpl. by rewrite app_assoc.
    + apply Forall_app. done.
Qed.

(** C9: the message list POST /smart-response posts is the greeting,
    the history messages and the new message, and it carries at most 10
    history messages, which are the oldest ones: the head of the event
    user's stored conversations in ascending order of creation time, so
    that no message left out is older than a message included; with more
    than 10 stored, exactly 10 are included. *)
Theorem smart_response_history_oldest_ten env eventUserId message w msgs :
  outbox (post_smart_response T env eventUserId message w).2
    = outbox w ++ [msgs] →
  ∃ u e history rest,
    msgs =
      [initialGreeting T u e] ++
      map (λ c,
             ChatMessage.mk
               (if bool_decide (Conversation.sender c = "user")
                then ChatMessage.user else ChatMessage.assistant)
               (Conversation.message c))
          history ++
      [ChatMessage.mk ChatMessage.user message] ∧
    (length history ≤ 10)%nat ∧
    length history =
      (10 `min` length (filter (λ c, Conversation.eventUserId c = eventUserId)
                          (conversations (db w))))%nat ∧
    history ++ rest ≡ₚ filter (λ c, Conversation.eventUserId c = eventUserId)
                         (conversations (db w)) ∧
    StronglySorted
      (λ a b, Conversation.createdAt a ≤ Conversation.createdAt b)
      (history ++ rest) ∧
    (∀ c c', c ∈ history → c' ∈ rest →
             Conversation.createdAt c ≤ Conversation.createdAt c').
Proof.
  intros Hsent.
  destruct (smart_response_run env eventUserId message w)
    as [(_ & Hout & _)
       |(eu & u & e & history & _ & _ & _ & _ & _ & Hh & Hout & _)];
    simpl in Hout; rewrite Hout in Hsent.
  { apply (f_equal length) in Hsent. rewrite length_app in Hsent.
    simpl in Hsent. lia. }
  apply app_inv_head in Hsent. injection Hsent as <-.
  unfold stored_for in Hh.
  set (stored := filter (λ c, Conversation.eventUserId c = eventUserId)
                   (conversations (db w))) in *.
  set (sorted := merge_sort created_le stored) in *.
  assert (sorted ≡ₚ stored) as Hperm by apply merge_sort_Permutation.
  assert (StronglySorted created_le sorted) as Hsorted.
  { apply Sorted_StronglySorted; [apply _|]. apply Sorted_merge_sort, _. }
  exists u, e, history, (drop 10 sorted).
  assert (history ++ drop 10 sorted = sorted) as Hsplit
    by (rewrite Hh; apply take_drop).
  split; [reflexivity|].
  split; [rewrite Hh, length_take; lia|].
  split; [rewrite Hh, length_take, Hperm; reflexivity|].
  rewrite Hsplit. split; [exact Hperm|]. split; [exact Hsorted|].
  intros c c' Hc Hc'. rewrite <- Hsplit in Hsorted.
  exact (StronglySorted_app_1_elem_of _ _ _ _ _ Hsorted Hc Hc').
Qed.

(** The routes never add or remove a user or an event user, so the
    foreign key of the event users is an invariant of the store. *)
Lemma router_keeps_keys env req w :
  eventUsers (db (router T env req w).2) = eventUsers (db w) ∧
  dom (users (db (router T env req w).2)) = dom (users (db w)).
Proof.
  destruct req as [eventUserId sender message|eventUserId|eventUserId message
                  |message user event|eventUserId carPlate]; simpl.
  - run_handler. by destruct (store_fault env (store_calls w)).
  - run_handler. by destruct (store_fault env (store_calls w)).
  - destruct (smart_response_run env eventUserId message w)
      as [(Hdb & _)|(eu & u & e & history & _ & _ & _ & _ & _ & _ & _ & Hrest)].
    { simpl in Hdb. by rewrite Hdb. }
    destruct Hrest as [(Hdb & _)|(content & _ & _ & _ & _ & Hu & _ & Heu)].
    { simpl in Hdb. by rewrite Hdb. }
    simpl in Hu, Heu. by rewrite Hu, Heu.
  - run_handler. destruct message as [s|]; simpl; [|done].
    by destruct (Js.strict_eq (Js.toLowerCase s) "no").
  - run_handler.
    destruct (store_fault env (store_calls w)); simpl; [done|].
    destruct (eventUsers (db w) !! eventUserId) as [eu|]; simpl; [|done].
    destruct (store_fault env (S (store_calls w))); simpl; [done|].
    unfold user_update.
    destruct (users (db w) !! EventUser.userId eu) as [u|] eqn:Hu; simpl;
      [|done].
    assert (dom (<[EventUser.userId eu := set_carPlate carPlate u]>
                   (users (db w))) = dom (users (db w))) as Hdom.
    { apply dom_insert_lookup_L. by rewrite Hu. }
    by destruct (store_fault env (S (S (store_calls w)))).
Qed.

(** X15: the foreign key of the event users is an invariant of the
    routes: if every event user refers to a stored user, this is still so
    after any sequence of requests. *)
Lemma serve_preserves_foreign_key (reqs : list (Env * Request Event)) d :
  user_foreign_key d → user_foreign_key (serve T reqs d).
Proof.
  revert d. induction reqs as [|[env req] reqs IH]; intros d Hfk; simpl.
  - exact Hfk.
  - apply IH.
    destruct (router_keeps_keys env req (on_store d)) as [Heu Hdom].
    unfold user_foreign_key in *. rewrite Heu. simpl.
    intros id eu Hid. apply elem_of_dom. rewrite Hdom.
    apply elem_of_dom. exact (Hfk id eu Hid).
Qed.

End RoutesCorrect.

(** ** The properties at work on the sample data *)

(** The template chain, branch by branch. *)
Example final_car_registration :
  finalMessage Sample.templates Sample.ada "Expo"
    "Please provide your license plate so I can Register Your Vehicle."
  = "Hi Ada, what is your plate number?".
Proof. vm_compute. reflexivity. Qed.

Example final_already_registered :
  finalMessage Sample.templates Sample.ada "Expo"
    "No need to register your vehicle, we already have your plate."
  = "No need to register your vehicle, we already have your plate.".
Proof. vm_compute. reflexivity. Qed.

Example final_recommendation :
  finalMessage Sample.templates Sample.ada "Expo"
    "Here are customized cards for visualization. View Interactive Map."
  = "Your parking for Expo is lot P1.".
Proof. vm_compute. reflexivity. Qed.

Example final_contact_admin :
  finalMessage Sample.templates Sample.ada "Expo"
    "Is the meeting information incorrect? Then contact the event organizer."
  = "Please write to the organizer of Expo.".
Proof. vm_compute. reflexivity. Qed.

Example final_special_needs :
  finalMessage Sample.templates Sample.ada "Expo" Sample.special_needs_reply
  = "For your injury I recommend parking near the lift." +:+ LF +:+ LF +:+
    "Your parking for Expo is lot P1.".
Proof. vm_compute. reflexivity. Qed.

(** The first-sentence pattern: it needs a terminator, and a terminator at
    the very start is no sentence. *)
Example first_sentence_found :
  Js.match_first_sentence "Wait! Is that so? Yes." = Some "Wait!".
Proof. reflexivity. Qed.

Example first_sentence_unterminated :
  Js.match_first_sentence "no full stop here" = None ∧
  firstSentence "no full stop here" = "no full stop here".
Proof. split; reflexivity. Qed.

Example first_sentence_leading_terminator :
  Js.match_first_sentence "...and then." = None.
Proof. reflexivity. Qed.

(** C1, as the specification states it, fails on the sample data: the
    completion API's reply mentions parking, a recommendation and an
    injury, and the message the handler returns and stores is neither
    that reply nor any of the three canned templates. *)
Lemma smart_response_special_needs_not_kept_or_canned :
  let reply := Sample.special_needs_reply in
  let run :=
    post_smart_response Sample.templates (Sample.env reply) "eu1"
      "I hurt my knee" (on_store Sample.store) in
  ∃ final,
    run.1 = Return (Some {| status := 200; body := JMessage final |}) ∧
    last (conversations (db run.2))
      = Some (Conversation.mk "c3" "eu1" "eu1" "bot" final 30) ∧
    ¬ kept_or_canned Sample.templates Sample.ada "Expo" reply final.
Proof.
  eexists. split; [vm_compute; reflexivity|].
  split; [vm_compute; reflexivity|].
  intros [H|[H|[H|H]]]; vm_compute in H; discriminate H.
Qed.

(** The first sentence is a part of the reply: the reply starts with it. *)
Lemma sentence_at_prefix s m :
  Js.sentence_at s = Some m → ∃ rest, s = m +:+ rest.
Proof.
  revert m. induction s as [|c s IH]; intros m; simpl; [discriminate|].
  destruct (Js.is_terminator c); [discriminate|].
  destruct (Js.sentence_at s) as [m'|].
  - intros [= <-]. destruct (IH m' eq_refl) as [rest ->]. by exists rest.
  - destruct s as [|d s']; [discriminate|].
    destruct (Js.is_terminator d); [|discriminate].
    intros [= <-]. by exists s'.
Qed.

(** X21: the first sentence taken for the special-needs message, match or
    fallback, is an initial part of the model's reply. *)
Lemma firstSentence_prefix aiMessage :
  ∃ rest, aiMessage = firstSentence aiMessage +:+ rest.
Proof.
  assert (∀ s : string, s = s +:+ "") as Hnil.
  { induction s as [|c s IH]; [reflexivity|].
    change (String c s = String c (s +:+ "")). by rewrite <- IH. }
  unfold firstSentence, Js.match_first_sentence.
  destruct (Js.sentence_at aiMessage) as [m|] eqn:Hm; simpl.
  - destruct (sentence_at_prefix _ _ Hm) as [rest Hrest].
    destruct m; [by exists ""|by exists rest].
  - by exists "".
Qed.

Lemma length_append (a b : string) :
  String.length (a +:+ b) = (String.length a + String.length b)%nat.
Proof. induction a as [|c a IH]; simpl; [reflexivity|]. by rewrite IH. Qed.

(** The same holds whatever the templates say: among three replies of
    different lengths that the special-needs condition accepts, one gets a
    final message as long as none of the four candidates. *)
Lemma special_needs_escapes_any_templates {Event}
    (T : MessageTemplates Event) user event :
  ∃ aiMessage,
    ¬ kept_or_canned T user event aiMessage
        (finalMessage T user event aiMessage).
Proof.
  set (F := ChatMessage.content (finalRecommendation T user event)).
  set (C := ChatMessage.content (carRegistration T user event)).
  set (A := ChatMessage.content (contactAdmin T user event)).
  assert (∀ r (n : nat),
            answers_special_needs r = true →
            asks_car_registration r = false →
            gives_final_recommendation r = false →
            refers_to_admin r = false →
            Js.match_first_sentence r = None →
            String.length r = n →
            S (S (n + String.length F)) ≠ String.length C →
            S (S (n + String.length F)) ≠ String.length A →
            ¬ kept_or_canned T user event r (finalMessage T user event r))%nat
    as Hfar.
  { intros r n H4 H1 H2 H3 Hm Hn HC HA.
    assert (String.length (finalMessage T user event r)
              = S (S (n + String.length F))) as Hlen.
    { unfold finalMessage, special_needs_message, firstSentence.
      rewrite H1, H2, H3, H4, Hm. cbn [Js.or_else].
      destruct r; rewrite !length_append; fold F; cbn [LF String.length];
        cbn [String.length] in Hn; lia. }
    intros [H|[H|[H|H]]]; apply (f_equal String.length) in H;
      rewrite Hlen in H; fold C F A in H; lia. }
  destruct (decide (S (S (24 + String.length F)) = String.length C ∨
                    S (S (24 + String.length F)) = String.length A))%nat
    as [Hone|Hone].
  2:{ exists "recommend parking injury".
      apply (Hfar _ 24%nat); [reflexivity..|tauto|tauto]. }
  destruct (decide (S (S (25 + String.length F)) = String.length C ∨
                    S (S (25 + String.length F)) = String.length A))%nat
    as [Htwo|Htwo].
  2:{ exists "recommend parking, injury".
      apply (Hfar _ 25%nat); [reflexivity..|tauto|tauto]. }
  exists "recommend parking - injury".
  apply (Hfar _ 26%nat); [reflexivity..|lia|lia].
Qed.

(** A run of the smart-response handler that stores and returns a final
    message, with what C1 (as the code has it) says about it. *)
Lemma smart_response_final_message_witness :
  let env := Sample.env Sample.special_needs_reply in
  let w := on_store Sample.store in
  let final :=
    finalMessage Sample.templates Sample.ada "Expo"
      Sample.special_needs_reply in
  (post_smart_response Sample.templates env "eu1" "I hurt my knee" w).1
    = Return (Some {| status := 200; body := JMessage final |}) ∧
  ∃ eu u e history content,
    eventUsers (db w) !! "eu1" = Some eu ∧
    users (db w) !! EventUser.userId eu = Some u ∧
    events (db w) !! EventUser.eventId eu = Some e ∧
    completion env
      (build_messages Sample.templates u e history "I hurt my knee")
      = Return content ∧
    conversations
      (db (post_smart_response Sample.templates env "eu1"
             "I hurt my knee" w).2)
      = conversations (db w) ++
        [Conversation.mk (new_id env) "eu1" "eu1" "bot" final (now env)] ∧
    let aiMessage := Js.or_else content "" in
    kept_or_canned Sample.templates u e aiMessage final ∨
    (answers_special_needs aiMessage = true ∧
     final = firstSentence aiMessage +:+ LF +:+ LF +:+
             ChatMessage.content (finalRecommendation Sample.templates u e)).
Proof.
  intros env w final. split; [vm_compute; reflexivity|].
  apply (smart_response_final_message Sample.templates env "eu1"
           "I hurt my knee" w final).
  vm_compute. reflexivity.
Defined.

(** The chain on a reply that asks for the plate: the first condition
    holds and decides. *)
Lemma finalMessage_first_match_wins_witness :
  let reply := "Could you provide your license plate?" in
  asks_car_registration reply = true ∧
  finalMessage Sample.templates Sample.ada "Expo" reply
    = first_match_wins (heuristics Sample.templates Sample.ada "Expo") reply ∧
  finalMessage Sample.templates Sample.ada "Expo" reply
    = ChatMessage.content
        (carRegistration Sample.templates Sample.ada "Expo").
Proof.
  intros reply. split; [vm_compute; reflexivity|].
  destruct (finalMessage_first_match_wins Sample.templates Sample.ada
              "Expo" reply) as (Hrefines & Hfirst & _).
  split; [exact Hrefines|]. apply Hfirst. vm_compute. reflexivity.
Defined.

(** What the sample request posts to the completion API: the greeting,
    the two stored messages of the event user, oldest first, and the new
    message. *)
Lemma smart_response_messages_sent_witness :
  let env := Sample.env "You can park in lot P1." in
  let w := on_store Sample.store in
  outbox
    (post_smart_response Sample.templates env "eu1" "Thanks" w).2
  = [ [ ChatMessage.mk ChatMessage.system
          "You coordinate parking for Expo. Greet Ada.";
        ChatMessage.mk ChatMessage.user "Where can I park?";
        ChatMessage.mk ChatMessage.assistant "Which lot do you prefer?";
        ChatMessage.mk ChatMessage.user "Thanks" ] ].
Proof.
  intros env w.
  destruct (smart_response_messages_sent Sample.templates env "eu1"
              "Thanks" w) as [_ Hposted].
  destruct (Hposted (EventUser.mk "eu1" "u1" "e1") Sample.ada "Expo"
              eq_refl eq_refl eq_refl eq_refl eq_refl)
    as (history & _ & _ & _ & Hhistory & Hout).
  rewrite Hout. vm_compute in Hhistory. injection Hhistory as <-.
  vm_compute. reflexivity.
Defined.

(** Registering a plate for the sample event user, and for an event user
    that does not exist. *)
Lemma register_plate_sets_car_plate_witness :
  let env := Sample.env "" in
  let w := on_store Sample.store in
  (∀ k, store_fault env k = false) ∧
  user_foreign_key (db w) ∧
  (let run := post_register_plate env "eu1" "ABC123" w in
   users (db run.2) !! "u1"
     = Some (User.mk "u1" "ada@example.org" "Ada" "Byron" (Some "ABC123")) ∧
   run.1 = Return (Some {| status := 200;
             body := JEventUser (EventUser.mk "eu1" "u1" "e1")
                       (Some (User.mk "u1" "ada@example.org" "Ada" "Byron"
                                (Some "ABC123")))
                       (Some "Expo") |})) ∧
  (let run := post_register_plate env "eu7" "ABC123" w in
   run.1 = Return (Some {| status := 404;
                           body := JError "Event user not found" |}) ∧
   users (db run.2) = users (db w) ∧
   db run.2 = db w).
Proof.
  intros env w.
  assert (∀ k, store_fault env k = false) as Hok by reflexivity.
  assert (user_foreign_key (db w)) as Hfk.
  { unfold user_foreign_key. apply (bool_decide_unpack _).
    vm_compute. exact I. }
  split; [exact Hok|]. split; [exact Hfk|]. split.
  - pose proof (register_plate_sets_car_plate env "eu1" "ABC123" w Hok Hfk)
      as Hfound.
    change (eventUsers (db w) !! "eu1")
      with (Some (EventUser.mk "eu1" "u1" "e1")) in Hfound.
    destruct Hfound as (u & Hu & Hplate & _ & _ & _ & _ & Hres).
    vm_compute in Hu. injection Hu as <-.
    split; [exact Hplate|]. rewrite Hres. vm_compute. reflexivity.
  - pose proof (register_plate_sets_car_plate env "eu7" "ABC123" w Hok Hfk)
      as Hmissing.
    change (eventUsers (db w) !! "eu7") with (@None EventUser.t) in Hmissing.
    exact Hmissing.
Defined.

(** The history of the sample event user: its two records, oldest first,
    without the record of the other event user. *)
Lemma get_conversations_returns_history_witness :
  let env := Sample.env "" in
  let w := on_store Sample.store in
  store_fault env (store_calls w) = false ∧
  ∃ rows,
    (get_conversations env "eu1" w).1
      = Return (Some {| status := 200; body := JConversations rows |}) ∧
    rows ≡ₚ filter (λ c, Conversation.eventUserId c = "eu1")
              (conversations (db w)) ∧
    (∀ c, c ∈ rows ↔
          c ∈ conversations (db w) ∧ Conversation.eventUserId c = "eu1") ∧
    StronglySorted
      (λ a b, Conversation.createdAt a ≤ Conversation.createdAt b) rows ∧
    db (get_conversations env "eu1" w).2 = db w.
Proof.
  intros env w. split; [reflexivity|].
  apply (get_conversations_returns_history env "eu1" w). reflexivity.
Defined.

Example get_conversations_sample :
  (get_conversations (Sample.env "") "eu1" (on_store Sample.store)).1
  = Return (Some {| status := 200;
      body := JConversations
                [ Sample.row "c1" "user" "Where can I park?" 10;
                  Sample.row "c2" "bot" "Which lot do you prefer?" 20 ] |}).
Proof. vm_compute. reflexivity. Qed.

(** After twelve stored messages the request carries the ten oldest,
    turns 1 to 10; turns 11 and 12, the most recent ones, are left out. *)
Lemma smart_response_history_oldest_ten_witness :
  let env := Sample.env "You can park in lot P1." in
  let w := on_store Sample.long_store in
  let format c :=
    ChatMessage.mk
      (if bool_decide (Conversation.sender c = "user")
       then ChatMessage.user else ChatMessage.assistant)
      (Conversation.message c) in
  let msgs :=
    [ChatMessage.mk ChatMessage.system
       "You coordinate parking for Expo. Greet Ada."] ++
    map format (Sample.turn <$> [1; 2; 3; 4; 5; 6; 7; 8; 9; 10]) ++
    [ChatMessage.mk ChatMessage.user "Thanks"] in
  outbox (post_smart_response Sample.templates env "eu1" "Thanks" w).2
    = outbox w ++ [msgs] ∧
  ∃ u e history rest,
    msgs =
      [initialGreeting Sample.templates u e] ++
      map format history ++
      [ChatMessage.mk ChatMessage.user "Thanks"] ∧
    (length history ≤ 10)%nat ∧
    length history =
      (10 `min` length (filter (λ c, Conversation.eventUserId c = "eu1")
                          (conversations (db w))))%nat ∧
    history ++ rest ≡ₚ filter (λ c, Conversation.eventUserId c = "eu1")
                         (conversations (db w)) ∧
    StronglySorted
      (λ a b, Conversation.createdAt a ≤ Conversation.createdAt b)
      (history ++ rest) ∧
    (∀ c c', c ∈ history → c' ∈ rest →
             Conversation.createdAt c ≤ Conversation.createdAt c').
Proof.
  intros env w format msgs. split; [vm_compute; reflexivity|].
  apply (smart_response_history_oldest_ten Sample.templates env "eu1"
           "Thanks" w msgs).
  vm_compute. reflexivity.
Defined.

(** Creating a conversation on the sample store, and with the store
    down. *)
Example post_conversation_sample :
  (post_conversation (Sample.env "") "eu1" "user" "Hello"
     (on_store Sample.store)).1
  = Return (Some {| status := 201;
      body := JConversation
                (Conversation.mk "c3" "eu1" "eu1" "user" "Hello" 30) |}) ∧
  (post_conversation Sample.env_store_down "eu1" "user" "Hello"
     (on_store Sample.store))
  = (Return (Some {| status := 500;
       body := JError "Failed to create conversation" |}),
     {| db := Sample.store; store_calls := 1; outbox := [] |}).
Proof. split; vm_compute; reflexivity. Qed.

(** The chat route answers 'No', and leaves 'Yes' without a response. *)
Example post_chat_sample :
  (post_chat Sample.templates (Some "No") Sample.ada "Expo"
     (on_store Sample.store)).1
  = Return (Some {| status := 200;
      body := JChatMessage
                (ChatMessage.mk ChatMessage.assistant
                   "Please write to the organizer of Expo.") |}) ∧
  (post_chat Sample.templates (Some "Yes") Sample.ada "Expo"
     (on_store Sample.store)).1
  = Return None ∧
  (post_chat Sample.templates None Sample.ada "Expo"
     (on_store Sample.store)).1
  = Return (Some {| status := 500;
      body := JChatMessage
                (ChatMessage.mk ChatMessage.assistant
                   "Something went wrong.") |}).
Proof. repeat split; vm_compute; reflexivity. Qed.

(** * Further properties of the code *)

(** ** The user slice under sequences of actions *)

(** X1: after any sequence of dispatched actions, each field of the user
    state holds the payload of the last action that set it, or its
    starting value when no action of the sequence set it. *)
Theorem userSlice_dispatch_last_payload state actions :
  userSlice.user (userSlice.dispatch state actions)
    = default (userSlice.user state)
        (userSlice.last_payload userSlice.user_payload actions) ∧
  userSlice.loading (userSlice.dispatch state actions)
    = default (userSlice.loading state)
        (userSlice.last_payload userSlice.loading_payload actions) ∧
  userSlice.error (userSlice.dispatch state actions)
    = default (userSlice.error state)
        (userSlice.last_payload userSlice.error_payload actions).
Proof.
  unfold userSlice.dispatch. revert state.
  induction actions as [|a actions IH]; intros state; [done|].
  cbn [fold_left userSlice.last_payload].
  destruct (IH (userSlice.reducer state a)) as (Hu & Hl & He).
  rewrite Hu, Hl, He.
  destruct (userSlice.last_payload userSlice.user_payload actions),
    (userSlice.last_payload userSlice.loading_payload actions),
    (userSlice.last_payload userSlice.error_payload actions);
    by destruct a.
Qed.

(** X2: two actions about different fields of the user state can be
    dispatched in either order. *)
Theorem userSlice_actions_commute state a b :
  userSlice.touches a ≠ userSlice.touches b →
  userSlice.reducer (userSlice.reducer state a) b
    = userSlice.reducer (userSlice.reducer state b) a.
Proof. intros Hkinds. destruct a, b; try (by destruct Hkinds); reflexivity. Qed.

Lemma userSlice_actions_commute_witness :
  let a := userSlice.SetLoading true in
  let b := userSlice.SetError (Some "network") in
  userSlice.touches a ≠ userSlice.touches b ∧
  userSlice.reducer (userSlice.reducer userSlice.initialState a) b
    = userSlice.reducer (userSlice.reducer userSlice.initialState b) a.
Proof.
  intros a b.
  assert (userSlice.touches a ≠ userSlice.touches b) as Hab by discriminate.
  split; [exact Hab|].
  exact (userSlice_actions_commute userSlice.initialState a b Hab).
Defined.

(** ** The first-sentence pattern *)

Lemma append_cons c (a b : string) : String c a +:+ b = String c (a +:+ b).
Proof. reflexivity. Qed.

(** X3: the pattern [/^[^.!?]+[.!?]/] matches exactly when the reply
    starts with at least one character other than '.', '!', '?' and some
    terminator follows; the match is then the reply up to and including
    its first terminator. *)
Theorem sentence_at_first_terminator s m :
  Js.sentence_at s = Some m ↔
  ∃ run t rest,
    run ≠ "" ∧
    Forall (λ c, Js.is_terminator c = false) (list_ascii_of_string run) ∧
    Js.is_terminator t = true ∧
    s = run +:+ String t rest ∧
    m = run +:+ String t "".
Proof.
  split.
  - revert m. induction s as [|c s IH]; intros m; simpl; [discriminate|].
    destruct (Js.is_terminator c) eqn:Hc; [discriminate|].
    destruct (Js.sentence_at s) as [m'|].
    + intros [= <-].
      destruct (IH m' eq_refl) as (run & t & rest & _ & Hrun & Ht & -> & ->).
      exists (String c run), t, rest. repeat split; try done.
      simpl. by constructor.
    + destruct s as [|d s']; [discriminate|].
      destruct (Js.is_terminator d) eqn:Hd; [|discriminate].
      intros [= <-]. exists (String c ""), d, s'. repeat split; try done.
      simpl. by repeat constructor.
  - intros (run & t & rest & Hne & Hrun & Ht & -> & ->).
    induction run as [|c run IH]; [done|].
    simpl in Hrun. apply Forall_cons in Hrun as [Hc Hrun].
    rewrite !append_cons. cbn [Js.sentence_at]. rewrite Hc.
    destruct run as [|c' run'].
    + change ("" +:+ String t rest) with (String t rest).
      cbn [Js.sentence_at]. by rewrite Ht.
    + by rewrite IH.
Qed.

Lemma lower_unit_idempotent c : Js.lower_unit (Js.lower_unit c) = Js.lower_unit c.
Proof. destruct c as [[] [] [] [] [] [] [] []]; reflexivity. Qed.

Lemma toLowerCase_idempotent s :
  Js.toLowerCase (Js.toLowerCase s) = Js.toLowerCase s.
Proof.
  induction s as [|c s IH]; simpl; [reflexivity|].
  by rewrite lower_unit_idempotent, IH.
Qed.

(** ** The conversation routes: failure paths and what they never do *)

Section RoutesBehaviour.

Context {Event : Type} (T : MessageTemplates Event).

Implicit Types (w : World Event) (d : DB Event) (env : Env).

Ltac step_handler :=
  unfold post_conversation, get_conversations, post_smart_response,
    post_chat, post_register_plate, try_catch, res_json, throw, prisma,
    axios_post, mbind, M_bind, mret, M_ret;
  simpl.

(** Two stores with the same tables are the same store. *)
Lemma DB_eq d d' :
  users d' = users d → events d' = events d →
  eventUsers d' = eventUsers d → conversations d' = conversations d →
  d' = d.
Proof. destruct d, d'; simpl; by intros -> -> -> ->. Qed.

(** X4: the heuristics do not look at letter case: a reply and its
    lower-cased form meet the same conditions of the chain, and so do any
    two replies that differ in letter case only. *)
Theorem heuristics_ignore_case aiMessage :
  (asks_car_registration (Js.toLowerCase aiMessage)
     = asks_car_registration aiMessage ∧
   gives_final_recommendation (Js.toLowerCase aiMessage)
     = gives_final_recommendation aiMessage ∧
   refers_to_admin (Js.toLowerCase aiMessage) = refers_to_admin aiMessage ∧
   answers_special_needs (Js.toLowerCase aiMessage)
     = answers_special_needs aiMessage) ∧
  ∀ other user event,
    Js.toLowerCase other = Js.toLowerCase aiMessage →
    asks_car_registration aiMessage || gives_final_recommendation aiMessage
      || refers_to_admin aiMessage = true →
    finalMessage T user event other = finalMessage T user event aiMessage.
Proof.
  unfold asks_car_registration, gives_final_recommendation, refers_to_admin,
    answers_special_needs, mentions.
  rewrite !toLowerCase_idempotent. split; [done|].
  intros other user event Hsame.
  unfold finalMessage, asks_car_registration, gives_final_recommendation,
    refers_to_admin, mentions.
  rewrite Hsame. intros Hcanned.
  repeat case_match; try reflexivity; simpl in Hcanned; discriminate.
Qed.

(** X5: POST /smart-response for an event user that is not stored, or
    whose user or event is not stored, answers 500 'Failed to get AI
    response' with the details 'Event user data not found'; nothing is
    posted to the completion API and the store is as it was. *)
Theorem smart_response_unknown_event_user env eventUserId message w :
  store_fault env (store_calls w) = false →
  (eventUsers (db w) !! eventUserId = None ∨
   ∃ eu, eventUsers (db w) !! eventUserId = Some eu ∧
         (users (db w) !! EventUser.userId eu = None ∨
          events (db w) !! EventUser.eventId eu = None)) →
  post_smart_response T env eventUserId message w
  = (Return (Some {| status := 500;
       body := JErrorDetails "Failed to get AI response"
                 "Event user data not found" |}),
     {| db := db w; store_calls := S (store_calls w); outbox := outbox w |}).
Proof.
  intros F0 Hmissing. step_handler. rewrite F0. simpl.
  destruct Hmissing as [Heu|(eu & Heu & [Hu|He])]; rewrite Heu; simpl.
  - reflexivity.
  - by rewrite Hu.
  - rewrite He. by destruct (users (db w) !! EventUser.userId eu).
Qed.

(** X6: when the call of the completion API fails, POST /smart-response
    has posted its message list - the greeting, the fetched history and
    the new message - stores nothing, and answers 500 'Failed to get AI
    response'. *)
Theorem smart_response_api_failure env eventUserId message w eu u e err :
  eventUsers (db w) !! eventUserId = Some eu →
  users (db w) !! EventUser.userId eu = Some u →
  events (db w) !! EventUser.eventId eu = Some e →
  store_fault env (store_calls w) = false →
  store_fault env (S (store_calls w)) = false →
  let messages :=
    [initialGreeting T u e] ++
    map (λ c,
           ChatMessage.mk
             (if bool_decide (Conversation.sender c = "user")
              then ChatMessage.user else ChatMessage.assistant)
             (Conversation.message c))
        (take 10
           (merge_sort created_le
              (filter (λ c, Conversation.eventUserId c = eventUserId)
                 (conversations (db w))))) ++
    [ChatMessage.mk ChatMessage.user message] in
  completion env messages = Throw err →
  let run := post_smart_response T env eventUserId message w in
  (∃ details,
     run.1 = Return (Some {| status := 500;
               body := JErrorDetails "Failed to get AI response" details |})) ∧
  db run.2 = db w ∧
  outbox run.2 = outbox w ++ [messages].
Proof.
  intros Heu Hu He F0 F1 messages Hfail run. subst run. step_handler.
  rewrite F0. simpl. rewrite Heu. simpl. rewrite Hu, He. simpl.
  rewrite F1. simpl.
  change (build_messages T u e _ message) with messages.
  rewrite Hfail. simpl. eauto.
Qed.

(** X7: POST /smart-response changes the store all or nothing, and its
    answer says which: with 200 exactly one record is appended, sent by
    'bot' and carrying the message of the answer; with 500 the store is
    as it was.  The user's own message is never stored by this route. *)
Theorem smart_response_all_or_nothing env eventUserId message w :
  let run := post_smart_response T env eventUserId message w in
  (∃ details,
     run.1 = Return (Some {| status := 500;
               body := JErrorDetails "Failed to get AI response" details |}) ∧
     db run.2 = db w) ∨
  (∃ final,
     run.1 = Return (Some {| status := 200; body := JMessage final |}) ∧
     db run.2 =
       {| users := users (db w); events := events (db w);
          eventUsers := eventUsers (db w);
          conversations :=
            conversations (db w) ++
            [Conversation.mk (new_id env) eventUserId eventUserId "bot"
               final (now env)] |}).
Proof.
  intros run. subst run.
  destruct (smart_response_run T env eventUserId message w)
    as [(Hdb & _ & (details & Hfail) & _)
       |(eu & u & e & history & _ & _ & _ & _ & _ & _ & _ & Hrest)].
  { left. by exists details. }
  destruct Hrest as [(Hdb & details & Hfail)
                    |(content & _ & _ & Hok & Hconv & Husers & Hev & Heus)].
  { left. by exists details. }
  right. eexists. split; [exact Hok|].
  apply DB_eq; simpl; assumption.
Qed.

(** X8: when the completion API answers without content, or with the
    empty string, POST /smart-response treats the reply as empty: no
    template is forced, and the empty message is returned with 200 and
    stored as the bot's message. *)
Theorem smart_response_empty_reply env eventUserId message w eu u e content :
  eventUsers (db w) !! eventUserId = Some eu →
  users (db w) !! EventUser.userId eu = Some u →
  events (db w) !! EventUser.eventId eu = Some e →
  (∀ k, store_fault env k = false) →
  completion env
    (build_messages T u e
       (take 10 (merge_sort created_le (stored_for eventUserId (db w))))
       message) = Return content →
  content = None ∨ content = Some "" →
  let run := post_smart_response T env eventUserId message w in
  run.1 = Return (Some {| status := 200; body := JMessage "" |}) ∧
  conversations (db run.2)
    = conversations (db w) ++
      [Conversation.mk (new_id env) eventUserId eventUserId "bot" ""
         (now env)].
Proof.
  intros Heu Hu He Hok Hreply Hempty run. subst run. step_handler.
  rewrite (Hok (store_calls w)). simpl. rewrite Heu. simpl.
  rewrite Hu, He. simpl. rewrite (Hok (S (store_calls w))). simpl.
  fold (stored_for eventUserId (db w)). rewrite Hreply. simpl.
  rewrite (Hok (S (S (store_calls w)))). simpl.
  by destruct Hempty as [-> | ->].
Qed.

(** X9: every message list POST /smart-response posts has between 2 and
    12 messages; the first is the initial greeting, the last is the new
    message with role 'user', and no message after the first has role
    'system'. *)
Theorem smart_response_request_shape env eventUserId message w msgs :
  outbox (post_smart_response T env eventUserId message w).2
    = outbox w ++ [msgs] →
  (2 ≤ length msgs ≤ 12)%nat ∧
  (∃ eu u e,
     eventUsers (db w) !! eventUserId = Some eu ∧
     users (db w) !! EventUser.userId eu = Some u ∧
     events (db w) !! EventUser.eventId eu = Some e ∧
     head msgs = Some (initialGreeting T u e)) ∧
  last msgs = Some (ChatMessage.mk ChatMessage.user message) ∧
  Forall (λ m, ChatMessage.role m ≠ ChatMessage.system) (tail msgs).
Proof.
  intros Hsent.
  destruct (smart_response_run T env eventUserId message w)
    as [(_ & Hout & _)
       |(eu & u & e & history & Heu & Hu & He & _ & _ & Hh & Hout & _)];
    simpl in Hout; rewrite Hout in Hsent.
  { apply (f_equal length) in Hsent. rewrite length_app in Hsent.
    simpl in Hsent. lia. }
  apply app_inv_head in Hsent. injection Hsent as <-.
  assert (length history ≤ 10)%nat as Hlen
    by (rewrite Hh, length_take; lia).
  unfold build_messages. repeat split.
  - rewrite !length_app, length_map. simpl. lia.
  - rewrite !length_app, length_map. simpl. lia.
  - by exists eu, u, e.
  - by rewrite app_assoc, last_snoc.
  - simpl. apply Forall_app. split.
    + apply Forall_map, Forall_forall. intros c _. unfold format_history.
      simpl. by destruct (Js.strict_eq _ _).
    + by repeat constructor.
Qed.

(** X10: only POST /smart-response talks to the completion API, and at
    most once per request: any other request leaves the list of posted
    message lists as it was. *)
Theorem router_posts_at_most_once env req w :
  let run := router T env req w in
  outbox run.2 = outbox w ∨
  ∃ eventUserId message msgs,
    req = PostSmartResponse eventUserId message ∧
    outbox run.2 = outbox w ++ [msgs].
Proof.
  intros run. subst run.
  destruct req as [eventUserId sender message|eventUserId|eventUserId message
                  |message user event|eventUserId carPlate]; simpl.
  - left. step_handler. by destruct (store_fault env (store_calls w)).
  - left. step_handler. by destruct (store_fault env (store_calls w)).
  - destruct (smart_response_run T env eventUserId message w)
      as [(_ & Hout & _)
         |(eu & u & e & history & _ & _ & _ & _ & _ & _ & Hout & _)].
    + by left.
    + right. by eexists _, _, _.
  - left. step_handler. destruct message as [s|]; simpl; [|done].
    by destruct (Js.strict_eq (Js.toLowerCase s) "no").
  - left. step_handler.
    destruct (store_fault env (store_calls w)); simpl; [done|].
    destruct (eventUsers (db w) !! eventUserId) as [eu|]; simpl; [|done].
    destruct (store_fault env (S (store_calls w))); simpl; [done|].
    unfold user_update.
    destruct (users (db w) !! EventUser.userId eu); simpl; [|done].
    by destruct (store_fault env (S (S (store_calls w)))).
Qed.

(** X11: no handler lets an error escape: every request ends with the
    handler returning.  It has then answered with status 200, 201, 404 or
    500 - except POST /chat with a message other than 'no', which is
    left without an answer. *)
Theorem router_catches_all_errors env req w :
  ∃ reply,
    (router T env req w).1 = Return reply ∧
    match reply with
    | Some r => status r ∈ [200; 201; 404; 500]%nat
    | None =>
        ∃ s user event,
          req = PostChat (Some s) user event ∧ Js.toLowerCase s ≠ "no"
    end.
Proof.
  destruct req as [eventUserId sender message|eventUserId|eventUserId message
                  |message user event|eventUserId carPlate]; simpl.
  - step_handler. destruct (store_fault env (store_calls w)); simpl;
      eexists; (split; [reflexivity|]); simpl; set_solver.
  - step_handler. destruct (store_fault env (store_calls w)); simpl;
      eexists; (split; [reflexivity|]); simpl; set_solver.
  - destruct (smart_response_run T env eventUserId message w)
      as [(_ & _ & (details & Hfail) & _)
         |(eu & u & e & history & _ & _ & _ & _ & _ & _ & _ & Hrest)].
    { eexists. split; [exact Hfail|]. simpl. set_solver. }
    destruct Hrest as [(_ & details & Hfail)|(content & _ & _ & Hok & _)].
    { eexists. split; [exact Hfail|]. simpl. set_solver. }
    eexists. split; [exact Hok|]. simpl. set_solver.
  - step_handler. destruct message as [s|]; simpl.
    + unfold Js.strict_eq. case_bool_decide; simpl.
      * eexists. split; [reflexivity|]. simpl. set_solver.
      * eexists. split; [reflexivity|]. by exists s, user, event.
    + eexists. split; [reflexivity|]. simpl. set_solver.
  - step_handler.
    destruct (store_fault env (store_calls w)); simpl.
    { eexists. split; [reflexivity|]. simpl. set_solver. }
    destruct (eventUsers (db w) !! eventUserId) as [eu|]; simpl.
    2:{ eexists. split; [reflexivity|]. simpl. set_solver. }
    destruct (store_fault env (S (store_calls w))); simpl.
    { eexists. split; [reflexivity|]. simpl. set_solver. }
    unfold user_update.
    destruct (users (db w) !! EventUser.userId eu); simpl.
    2:{ eexists. split; [reflexivity|]. simpl. set_solver. }
    destruct (store_fault env (S (S (store_calls w)))); simpl;
      eexists; (split; [reflexivity|]); simpl; set_solver.
Qed.

(** X12: when the store fails on the first operation of a request, every
    route but /chat (which does not use the store) answers 500 with its
    own error text; the store is as it was and nothing is posted to the
    completion API. *)
Theorem router_store_failure env req w :
  store_fault env (store_calls w) = true →
  let run := router T env req w in
  db run.2 = db w ∧
  outbox run.2 = outbox w ∧
  match req with
  | PostConversation _ _ _ =>
      run.1 = Return (Some {| status := 500;
                body := JError "Failed to create conversation" |})
  | GetConversations _ =>
      run.1 = Return (Some {| status := 500;
                body := JError "Failed to fetch conversations" |})
  | PostSmartResponse _ _ =>
      ∃ details,
        run.1 = Return (Some {| status := 500;
                  body := JErrorDetails "Failed to get AI response" details |})
  | PostRegisterPlate _ _ =>
      run.1 = Return (Some {| status := 500;
                body := JError "Failed to register car plate" |})
  | PostChat _ _ _ => True
  end.
Proof.
  intros Hdown run. subst run.
  destruct req as [eventUserId sender message|eventUserId|eventUserId message
                  |message user event|eventUserId carPlate]; simpl;
    step_handler; rewrite ?Hdown; simpl; eauto.
  destruct message as [s|]; simpl; [|done].
  by destruct (Js.strict_eq (Js.toLowerCase s) "no").
Qed.

(** X13: registering a plate twice for the same event user is the same as
    registering the second plate alone - same answer, same store - so the
    last plate wins and repeating a registration changes nothing more. *)
Theorem register_plate_last_wins env env' eventUserId plate plate' d :
  (∀ k, store_fault env k = false) →
  (∀ k, store_fault env' k = false) →
  let d1 := db (post_register_plate env eventUserId plate (on_store d)).2 in
  post_register_plate env' eventUserId plate' (on_store d1)
  = post_register_plate env' eventUserId plate' (on_store d).
Proof.
  intros Hok Hok' d1.
  assert (d1 = match eventUsers d !! eventUserId with
               | Some eu =>
                   match users d !! EventUser.userId eu with
                   | Some u =>
                       {| users := <[EventUser.userId eu :=
                                       set_carPlate plate u]> (users d);
                          events := events d; eventUsers := eventUsers d;
                          conversations := conversations d |}
                   | None => d
                   end
               | None => d
               end) as ->.
  { subst d1. step_handler. rewrite (Hok 0%nat). simpl.
    destruct (eventUsers d !! eventUserId) as [eu|]; simpl; [|done].
    rewrite (Hok 1%nat). simpl. unfold user_update.
    destruct (users d !! EventUser.userId eu) as [u|]; simpl; [|done].
    by rewrite (Hok 2%nat). }
  destruct (eventUsers d !! eventUserId) as [eu|] eqn:Heu; [|done].
  destruct (users d !! EventUser.userId eu) as [u|] eqn:Hu; [|done].
  step_handler. rewrite (Hok' 0%nat). simpl. rewrite Heu. simpl.
  rewrite (Hok' 1%nat). simpl. unfold user_update. simpl.
  rewrite lookup_insert_eq, Hu. simpl. rewrite (Hok' 2%nat). simpl.
  rewrite Heu. simpl. rewrite !lookup_insert_eq, insert_insert_eq.
  reflexivity.
Qed.

Lemma same_identity_refl u : same_identity u u.
Proof. by repeat split. Qed.

Lemma same_identity_trans u1 u2 u3 :
  same_identity u1 u2 → same_identity u2 u3 → same_identity u1 u3.
Proof.
  intros (?&?&?&?) (?&?&?&?). repeat split; congruence.
Qed.

(** One request keeps the events and event users, and every user with
    its identity. *)
Lemma router_keeps_identity env req w :
  events (db (router T env req w).2) = events (db w) ∧
  eventUsers (db (router T env req w).2) = eventUsers (db w) ∧
  ∀ k u, users (db w) !! k = Some u →
         ∃ u', users (db (router T env req w).2) !! k = Some u' ∧
               same_identity u u'.
Proof.
  assert (∀ k u, users (db w) !! k = Some u →
                 ∃ u', users (db w) !! k = Some u' ∧ same_identity u u')
    as Hsame by (intros k u Hu; exists u; auto using same_identity_refl).
  destruct req as [eventUserId sender message|eventUserId|eventUserId message
                  |message user event|eventUserId carPlate]; simpl.
  - step_handler. by destruct (store_fault env (store_calls w)).
  - step_handler. by destruct (store_fault env (store_calls w)).
  - destruct (smart_response_run T env eventUserId message w)
      as [(Hdb & _)|(eu & u & e & history & _ & _ & _ & _ & _ & _ & _ & Hrest)].
    { simpl in Hdb. by rewrite Hdb. }
    destruct Hrest as [(Hdb & _)|(content & _ & _ & _ & _ & Hu & He & Heu)].
    { simpl in Hdb. by rewrite Hdb. }
    simpl in Hu, He, Heu. by rewrite Hu, He, Heu.
  - step_handler. destruct message as [s|]; simpl; [|done].
    by destruct (Js.strict_eq (Js.toLowerCase s) "no").
  - step_handler.
    destruct (store_fault env (store_calls w)); simpl; [done|].
    destruct (eventUsers (db w) !! eventUserId) as [eu|]; simpl; [|done].
    destruct (store_fault env (S (store_calls w))); simpl; [done|].
    unfold user_update.
    destruct (users (db w) !! EventUser.userId eu) as [u|] eqn:Hu; simpl;
      [|done].
    assert (∀ k u0, users (db w) !! k = Some u0 →
              ∃ u', <[EventUser.userId eu := set_carPlate carPlate u]>
                      (users (db w)) !! k = Some u' ∧ same_identity u0 u')
      as Hupdated.
    { intros k u0 Hk. destruct (decide (k = EventUser.userId eu)) as [->|Hne].
      - rewrite lookup_insert_eq. eexists. split; [reflexivity|].
        assert (u0 = u) as -> by congruence.
        by repeat split.
      - rewrite lookup_insert_ne by done. eauto using same_identity_refl. }
    by destruct (store_fault env (S (S (store_calls w)))).
Qed.

(** X16: whatever requests are served, the tables of events and of event
    users stay as they are, and every user record stays in the store with
    its id, email and names. *)
Theorem serve_keeps_identity (reqs : list (Env * Request Event)) d :
  events (serve T reqs d) = events d ∧
  eventUsers (serve T reqs d) = eventUsers d ∧
  ∀ k u, users d !! k = Some u →
         ∃ u', users (serve T reqs d) !! k = Some u' ∧
               User.id u' = User.id u ∧
               User.email u' = User.email u ∧
               User.firstName u' = User.firstName u ∧
               User.lastName u' = User.lastName u.
Proof.
  revert d. induction reqs as [|[env req] reqs IH]; intros d; simpl.
  - repeat split. intros k u Hu. exists u. by repeat split.
  - destruct (router_keeps_identity env req (on_store d))
      as (Hev & Heu & Hus).
    destruct (IH (db (router T env req (on_store d)).2))
      as (Hev' & Heu' & Hus').
    split; [by rewrite Hev'|]. split; [by rewrite Heu'|].
    intros k u Hu. destruct (Hus k u Hu) as (u1 & Hu1 & Hsame1).
    destruct (Hus' k u1 Hu1) as (u2 & Hu2 & Hsame2).
    exists u2. split; [exact Hu2|].
    exact (same_identity_trans _ _ _ Hsame1 Hsame2).
Qed.

#[local] Existing Instance created_le_total.
#[local] Existing Instance created_le_trans.

(** The history query after one record was appended to the table. *)
Lemma findMany_after_append eventUserId d d' c :
  conversations d' = conversations d ++ [c] →
  ∃ before after,
    (conversation_findMany eventUserId None d).1 = Return before ∧
    (conversation_findMany eventUserId None d').1 = Return after ∧
    if decide (Conversation.eventUserId c = eventUserId)
    then after ≡ₚ c :: before
    else after = before.
Proof.
  intros Happ. eexists _, _. split; [reflexivity|]. split; [reflexivity|].
  rewrite Happ, filter_app. case_decide as Hc.
  - rewrite (filter_cons_True _ c []) by exact Hc. rewrite filter_nil.
    rewrite !merge_sort_Permutation.
    by rewrite <- Permutation_cons_append.
  - rewrite (filter_cons_False _ c []) by exact Hc. rewrite filter_nil.
    by rewrite app_nil_r.
Qed.

(** X17: a conversation created by POST / is read back by GET
    /:eventUserId: the history of its event user is the history from
    before with the created record added, and the history of every other
    event user is answered exactly as before. *)
Theorem post_then_get_round_trip env env' eventUserId sender message d :
  store_fault env 0 = false →
  store_fault env' 0 = false →
  let created :=
    Conversation.mk (new_id env) eventUserId eventUserId sender message
      (now env) in
  let d' := db (post_conversation env eventUserId sender message
                  (on_store d)).2 in
  (∃ before after,
     (get_conversations env' eventUserId (on_store d)).1
       = Return (Some {| status := 200; body := JConversations before |}) ∧
     (get_conversations env' eventUserId (on_store d')).1
       = Return (Some {| status := 200; body := JConversations after |}) ∧
     after ≡ₚ created :: before) ∧
  ∀ other, other ≠ eventUserId →
    (get_conversations env' other (on_store d')).1
    = (get_conversations env' other (on_store d)).1.
Proof.
  intros Hok Hok' created d'.
  assert (conversations d' = conversations d ++ [created]) as Happ.
  { subst d'. step_handler. by rewrite Hok. }
  split.
  - destruct (findMany_after_append eventUserId d d' created Happ)
      as (before & after & Hb & Ha & Hperm).
    rewrite decide_True in Hperm by done.
    exists before, after. step_handler. rewrite Hok'. simpl.
    simpl in Hb, Ha. injection Hb as Hb. injection Ha as Ha.
    by rewrite Hb, Ha.
  - intros other Hother.
    destruct (findMany_after_append other d d' created Happ)
      as (before & after & Hb & Ha & Hsame).
    rewrite decide_False in Hsame by (simpl; congruence).
    step_handler. rewrite Hok'. simpl.
    simpl in Hb, Ha. injection Hb as Hb. injection Ha as Ha.
    by rewrite Hb, Ha, Hsame.
Qed.

(** X18: the message POST /smart-response answers with is read back by
    GET /:eventUserId as a record of the bot: the history afterwards is
    the history from before with that record added. *)
Theorem smart_response_then_get env env' eventUserId message w final :
  (post_smart_response T env eventUserId message w).1
    = Return (Some {| status := 200; body := JMessage final |}) →
  store_fault env' 0 = false →
  let d' := db (post_smart_response T env eventUserId message w).2 in
  ∃ before after,
    (get_conversations env' eventUserId (on_store (db w))).1
      = Return (Some {| status := 200; body := JConversations before |}) ∧
    (get_conversations env' eventUserId (on_store d')).1
      = Return (Some {| status := 200; body := JConversations after |}) ∧
    after ≡ₚ Conversation.mk (new_id env) eventUserId eventUserId "bot"
               final (now env) :: before.
Proof.
  intros Hrun Hok' d'.
  assert (conversations d' = conversations (db w) ++
            [Conversation.mk (new_id env) eventUserId eventUserId "bot"
               final (now env)]) as Happ.
  { subst d'.
    destruct (smart_response_run T env eventUserId message w)
      as [(_ & _ & (details & Hfail) & _)
         |(eu & u & e & history & _ & _ & _ & _ & _ & _ & _ & Hrest)].
    { simpl in Hfail. congruence. }
    destruct Hrest as [(_ & details & Hfail)
                      |(content & _ & _ & Hok & Hconv & _)].
    { simpl in Hfail. congruence. }
    simpl in Hok, Hconv. rewrite Hok in Hrun. injection Hrun as <-.
    exact Hconv. }
  destruct (findMany_after_append eventUserId (db w) d' _ Happ)
    as (before & after & Hb & Ha & Hperm).
  rewrite decide_True in Hperm by done.
  exists before, after. step_handler. rewrite Hok'. simpl.
  simpl in Hb, Ha. injection Hb as Hb. injection Ha as Ha.
  by rewrite Hb, Ha.
Qed.

Lemma filter_keeps_all {A} (P : A → Prop) `{∀ x, Decision (P x)} (l : list A) :
  Forall P l → filter P l = l.
Proof.
  induction 1 as [|x l Hx _ IH]; [done|].
  by rewrite filter_cons_True, IH.
Qed.

Lemma filter_drops_all {A} (P : A → Prop) `{∀ x, Decision (P x)} (l : list A) :
  Forall (λ x, ¬ P x) l → filter P l = [].
Proof.
  induction 1 as [|x l Hx _ IH]; [done|].
  by rewrite filter_cons_False, IH.
Qed.

(** A record that is newer than ten or more records of the sorted list
    is not among its first ten. *)
Lemma newer_than_ten_not_taken (sorted older rest : list Conversation.t) c :
  StronglySorted created_le sorted →
  sorted ≡ₚ older ++ rest →
  (10 ≤ length older)%nat →
  Forall (λ o, Conversation.createdAt o < Conversation.createdAt c) older →
  c ∉ take 10 sorted.
Proof.
  intros Hsorted Hperm Hten Hnewer Hin.
  apply elem_of_take in Hin as (i & Hi & Hlt).
  pose proof (take_drop_middle _ _ _ Hi) as Hsplit.
  rewrite <- Hsplit in Hsorted.
  apply StronglySorted_app in Hsorted as (_ & _ & Hrest).
  apply StronglySorted_cons in Hrest as [Hafter _].
  set (P := λ o, Conversation.createdAt o < Conversation.createdAt c).
  assert (length (filter P older) ≤ length (filter P sorted))%nat as Hcount.
  { rewrite Hperm, filter_app, length_app. lia. }
  rewrite (filter_keeps_all P older Hnewer) in Hcount.
  rewrite <- Hsplit, filter_app in Hcount.
  rewrite (filter_drops_all P (c :: drop (S i) sorted)) in Hcount.
  - rewrite app_nil_r in Hcount.
    pose proof (length_filter P (take i sorted)) as Hpre.
    rewrite length_take in Hpre. lia.
  - constructor; [unfold P; lia|].
    eapply Forall_impl; [exact Hafter|]. unfold P, created_le. simpl. lia.
Qed.

(** X19: once an event user has ten stored conversations, the history
    POST /smart-response fetches is closed: records added later, with
    later creation times, never enter it - the query keeps returning ten
    of the records that were already there. *)
Theorem history_closed_after_ten eventUserId d d' added :
  conversations d' = conversations d ++ added →
  (10 ≤ length (stored_for eventUserId d))%nat →
  Forall (λ c', Forall (λ c, Conversation.createdAt c
                             < Conversation.createdAt c')
                  (stored_for eventUserId d)) added →
  ∃ history,
    (conversation_findMany eventUserId (Some 10%nat) d').1 = Return history ∧
    length history = 10%nat ∧
    Forall (λ c, c ∈ stored_for eventUserId d ∧ c ∉ added) history.
Proof.
  intros Happ Hten Hnewer. eexists. split; [reflexivity|]. simpl.
  rewrite Happ, filter_app. fold (stored_for eventUserId d).
  set (old := stored_for eventUserId d) in *.
  set (new := filter (λ c, Conversation.eventUserId c = eventUserId) added).
  set (sorted := merge_sort created_le (old ++ new)).
  assert (sorted ≡ₚ old ++ new) as Hperm by apply merge_sort_Permutation.
  assert (StronglySorted created_le sorted) as Hsorted.
  { apply Sorted_StronglySorted; [apply _|]. apply Sorted_merge_sort, _. }
  assert (∀ c, c ∈ added → c ∉ take 10 sorted) as Hout.
  { intros c Hc. apply (newer_than_ten_not_taken sorted old new); try done.
    rewrite Forall_forall in Hnewer. exact (Hnewer c Hc). }
  split.
  - rewrite length_take. apply Permutation_length in Hperm.
    rewrite length_app in Hperm. lia.
  - apply Forall_forall. intros c Hc.
    assert (c ∉ added) as Hnot by (intros Hadded; by apply (Hout c)).
    split; [|exact Hnot].
    assert (c ∈ sorted) as Hin.
    { apply elem_of_take in Hc as (i & Hi & _).
      apply list_elem_of_lookup. by exists i. }
    rewrite Hperm in Hin. apply elem_of_app in Hin as [Hold|Hnew]; [done|].
    subst new. apply list_elem_of_filter in Hnew as [_ Hadded]. done.
Qed.

(** X20: while an event user has fewer than ten stored conversations, a
    message stored by POST / is part of the next message list POST
    /smart-response posts for that event user, with role 'user' when its
    sender is 'user' and role 'assistant' otherwise. *)
Theorem posted_message_reaches_model
    env env' eventUserId sender message question d eu u e :
  (length (stored_for eventUserId d) < 10)%nat →
  store_fault env 0 = false →
  store_fault env' 0 = false →
  store_fault env' 1 = false →
  eventUsers d !! eventUserId = Some eu →
  users d !! EventUser.userId eu = Some u →
  events d !! EventUser.eventId eu = Some e →
  let d' := db (post_conversation env eventUserId sender message
                  (on_store d)).2 in
  ∃ msgs,
    outbox (post_smart_response T env' eventUserId question (on_store d')).2
      = [msgs] ∧
    ChatMessage.mk
      (if bool_decide (sender = "user")
       then ChatMessage.user else ChatMessage.assistant)
      message ∈ msgs.
Proof.
  intros Hshort Hok F0 F1 Heu Hu He d'.
  set (created := Conversation.mk (new_id env) eventUserId eventUserId
                    sender message (now env)).
  assert (d' = {| users := users d; events := events d;
                  eventUsers := eventUsers d;
                  conversations := conversations d ++ [created] |}) as Hd'.
  { subst d'. step_handler. by rewrite Hok. }
  destruct (smart_response_run T env' eventUserId question (on_store d'))
    as [(_ & _ & _ & Hnot)
       |(eu' & u' & e' & history & _ & _ & _ & _ & _ & Hh & Hout & _)].
  { destruct Hnot. exists eu, u, e. rewrite Hd'. simpl. done. }
  simpl in Hout. eexists. split; [exact Hout|].
  unfold build_messages. apply elem_of_app. right.
  apply elem_of_app. left.
  change (format_history created
            ∈ map format_history history).
  apply list_elem_of_fmap_2.
  assert (stored_for eventUserId d' = stored_for eventUserId d ++ [created])
    as Hstored.
  { rewrite Hd'. unfold stored_for. simpl. rewrite filter_app.
    by rewrite (filter_cons_True _ created []), filter_nil. }
  simpl in Hh. rewrite Hstored in Hh.
  rewrite take_ge in Hh.
  - rewrite Hh, merge_sort_Permutation. apply elem_of_app. right.
    by apply list_elem_of_singleton.
  - pose proof (Permutation_length
                  (merge_sort_Permutation created_le
                     (stored_for eventUserId d ++ [created]))) as Hlen.
    rewrite Hlen, length_app. simpl. lia.
Qed.

End RoutesBehaviour.

(** ** The further properties on the sample data *)

Lemma smart_response_unknown_event_user_witness :
  let env := Sample.env "You can park in lot P1." in
  let w := on_store Sample.store in
  store_fault env (store_calls w) = false ∧
  eventUsers (db w) !! "eu7" = None ∧
  post_smart_response Sample.templates env "eu7" "Hello" w
  = (Return (Some {| status := 500;
       body := JErrorDetails "Failed to get AI response"
                 "Event user data not found" |}),
     {| db := db w; store_calls := 1; outbox := [] |}).
Proof.
  intros env w.
  assert (eventUsers (db w) !! "eu7" = None) as Hnone by reflexivity.
  split; [reflexivity|]. split; [exact Hnone|].
  exact (smart_response_unknown_event_user Sample.templates env "eu7"
           "Hello" w eq_refl (or_introl Hnone)).
Defined.

Lemma smart_response_api_failure_witness :
  let env := Sample.env_api_down in
  let w := on_store Sample.store in
  let run := post_smart_response Sample.templates env "eu1" "Thanks" w in
  (∃ details,
     run.1 = Return (Some {| status := 500;
               body := JErrorDetails "Failed to get AI response" details |})) ∧
  db run.2 = Sample.store ∧
  outbox run.2
  = [ [ ChatMessage.mk ChatMessage.system
          "You coordinate parking for Expo. Greet Ada.";
        ChatMessage.mk ChatMessage.user "Where can I park?";
        ChatMessage.mk ChatMessage.assistant "Which lot do you prefer?";
        ChatMessage.mk ChatMessage.user "Thanks" ] ].
Proof.
  intros env w run.
  destruct (smart_response_api_failure Sample.templates env "eu1" "Thanks"
              w (EventUser.mk "eu1" "u1" "e1") Sample.ada "Expo"
              (HttpError "Request failed" (Some "rate limited"))
              eq_refl eq_refl eq_refl eq_refl eq_refl eq_refl)
    as (Hanswer & Hdb & Hout).
  split; [exact Hanswer|]. split; [exact Hdb|].
  subst run. rewrite Hout. vm_compute. reflexivity.
Defined.

Lemma smart_response_empty_reply_witness :
  let env := Sample.env_no_content in
  let w := on_store Sample.store in
  (∀ k, store_fault env k = false) ∧
  (post_smart_response Sample.templates env "eu1" "Thanks" w).1
  = Return (Some {| status := 200; body := JMessage "" |}) ∧
  conversations
    (db (post_smart_response Sample.templates env "eu1" "Thanks" w).2)
  = conversations (db w) ++
    [Conversation.mk "c3" "eu1" "eu1" "bot" "" 30].
Proof.
  intros env w.
  assert (∀ k, store_fault env k = false) as Hok by reflexivity.
  split; [exact Hok|].
  exact (smart_response_empty_reply Sample.templates env "eu1" "Thanks" w
           (EventUser.mk "eu1" "u1" "e1") Sample.ada "Expo" None
           eq_refl eq_refl eq_refl Hok eq_refl (or_introl eq_refl)).
Defined.

Lemma smart_response_request_shape_witness :
  let env := Sample.env "You can park in lot P1." in
  let w := on_store Sample.long_store in
  let msgs :=
    build_messages Sample.templates Sample.ada "Expo"
      (Sample.turn <$> [1; 2; 3; 4; 5; 6; 7; 8; 9; 10]) "Thanks" in
  outbox (post_smart_response Sample.templates env "eu1" "Thanks" w).2
    = outbox w ++ [msgs] ∧
  (2 ≤ length msgs ≤ 12)%nat ∧
  last msgs = Some (ChatMessage.mk ChatMessage.user "Thanks") ∧
  Forall (λ m, ChatMessage.role m ≠ ChatMessage.system) (tail msgs).
Proof.
  intros env w msgs.
  assert (outbox (post_smart_response Sample.templates env "eu1"
                    "Thanks" w).2 = outbox w ++ [msgs]) as Hsent
    by (vm_compute; reflexivity).
  split; [exact Hsent|].
  destruct (smart_response_request_shape Sample.templates env "eu1"
              "Thanks" w msgs Hsent) as (Hlen & _ & Hlast & Hroles).
  split; [exact Hlen|]. split; [exact Hlast|exact Hroles].
Defined.

Lemma router_store_failure_witness :
  let w := on_store Sample.store in
  let run :=
    router Sample.templates Sample.env_store_down
      (PostRegisterPlate "eu1" "ABC123") w in
  store_fault Sample.env_store_down (store_calls w) = true ∧
  db run.2 = db w ∧
  outbox run.2 = outbox w ∧
  run.1 = Return (Some {| status := 500;
            body := JError "Failed to register car plate" |}).
Proof.
  intros w run. split; [reflexivity|].
  exact (router_store_failure Sample.templates Sample.env_store_down
           (PostRegisterPlate "eu1" "ABC123") w eq_refl).
Defined.

Lemma register_plate_last_wins_witness :
  let env := Sample.env "" in
  let d1 :=
    db (post_register_plate env "eu1" "ABC123" (on_store Sample.store)).2 in
  (∀ k, store_fault env k = false) ∧
  post_register_plate env "eu1" "XYZ789" (on_store d1)
  = post_register_plate env "eu1" "XYZ789" (on_store Sample.store).
Proof.
  intros env d1.
  assert (∀ k, store_fault env k = false) as Hok by reflexivity.
  split; [exact Hok|].
  exact (register_plate_last_wins env env "eu1" "ABC123" "XYZ789"
           Sample.store Hok Hok).
Defined.

Lemma register_plate_dangling_user_witness :
  let env := Sample.env "" in
  let w := on_store Sample.orphan_store in
  (∀ k, store_fault env k = false) ∧
  users (db w) !! "u9" = None ∧
  (post_register_plate env "eu1" "ABC123" w).1
    = Return (Some {| status := 500;
                      body := JError "Failed to register car plate" |}) ∧
  db (post_register_plate env "eu1" "ABC123" w).2 = db w.
Proof.
  intros env w.
  assert (∀ k, store_fault env k = false) as Hok by reflexivity.
  split; [exact Hok|]. split; [reflexivity|].
  exact (register_plate_dangling_user env "eu1" "ABC123" w
           (EventUser.mk "eu1" "u9" "e1") Hok eq_refl eq_refl).
Defined.

Lemma serve_preserves_foreign_key_witness :
  let env := Sample.env "You can park in lot P1." in
  let reqs :=
    [ (env, PostRegisterPlate "eu1" "ABC123");
      (env, PostConversation "eu1" "user" "Where can I park?");
      (env, PostSmartResponse "eu1" "Thanks") ] in
  user_foreign_key Sample.store ∧
  user_foreign_key (serve Sample.templates reqs Sample.store).
Proof.
  intros env reqs.
  assert (user_foreign_key Sample.store) as Hfk.
  { unfold user_foreign_key. apply (bool_decide_unpack _).
    vm_compute. exact I. }
  split; [exact Hfk|].
  exact (serve_preserves_foreign_key Sample.templates reqs Sample.store Hfk).
Defined.

Lemma post_then_get_round_trip_witness :
  let env := Sample.env "" in
  let d' :=
    db (post_conversation env "eu1" "user" "Hello" (on_store Sample.store)).2 in
  store_fault env 0 = false ∧
  (∃ before after,
     (get_conversations env "eu1" (on_store Sample.store)).1
       = Return (Some {| status := 200; body := JConversations before |}) ∧
     (get_conversations env "eu1" (on_store d')).1
       = Return (Some {| status := 200; body := JConversations after |}) ∧
     after ≡ₚ Conversation.mk "c3" "eu1" "eu1" "user" "Hello" 30 :: before) ∧
  (get_conversations env "eu2" (on_store d')).1
  = (get_conversations env "eu2" (on_store Sample.store)).1.
Proof.
  intros env d'. split; [reflexivity|].
  destruct (post_then_get_round_trip env env "eu1" "user" "Hello"
              Sample.store eq_refl eq_refl) as [Hsame Hother].
  split; [exact Hsame|]. apply Hother. discriminate.
Defined.

Lemma smart_response_then_get_witness :
  let env := Sample.env "You can park in lot P1." in
  let w := on_store Sample.store in
  let d' := db (post_smart_response Sample.templates env "eu1" "Thanks" w).2 in
  (post_smart_response Sample.templates env "eu1" "Thanks" w).1
    = Return (Some {| status := 200;
                      body := JMessage "You can park in lot P1." |}) ∧
  ∃ before after,
    (get_conversations env "eu1" (on_store (db w))).1
      = Return (Some {| status := 200; body := JConversations before |}) ∧
    (get_conversations env "eu1" (on_store d')).1
      = Return (Some {| status := 200; body := JConversations after |}) ∧
    after ≡ₚ Conversation.mk "c3" "eu1" "eu1" "bot"
               "You can park in lot P1." 30 :: before.
Proof.
  intros env w d'.
  assert ((post_smart_response Sample.templates env "eu1" "Thanks" w).1
          = Return (Some {| status := 200;
                            body := JMessage "You can park in lot P1." |}))
    as Hrun by (vm_compute; reflexivity).
  split; [exact Hrun|].
  exact (smart_response_then_get Sample.templates env env "eu1" "Thanks" w
           "You can park in lot P1." Hrun eq_refl).
Defined.

Lemma history_closed_after_ten_witness :
  let added := [Sample.row "m13" "user" "turn 13" 13] in
  let d' : DB string :=
    {| users := users Sample.long_store;
       events := events Sample.long_store;
       eventUsers := eventUsers Sample.long_store;
       conversations := conversations Sample.long_store ++ added |} in
  (10 ≤ length (stored_for "eu1" Sample.long_store))%nat ∧
  ∃ history,
    (conversation_findMany "eu1" (Some 10%nat) d').1 = Return history ∧
    length history = 10%nat ∧
    Forall (λ c, c ∈ stored_for "eu1" Sample.long_store ∧ c ∉ added) history.
Proof.
  intros added d'.
  assert (10 ≤ length (stored_for "eu1" Sample.long_store))%nat as Hten
    by (vm_compute; lia).
  split; [exact Hten|].
  apply (history_closed_after_ten "eu1" Sample.long_store d' added eq_refl
           Hten).
  apply (bool_decide_unpack _). vm_compute. exact I.
Defined.

Lemma posted_message_reaches_model_witness :
  let env := Sample.env "You can park in lot P1." in
  let d' :=
    db (post_conversation env "eu1" "user" "Is lot P2 open?"
          (on_store Sample.store)).2 in
  (length (stored_for "eu1" Sample.store) < 10)%nat ∧
  ∃ msgs,
    outbox (post_smart_response Sample.templates env "eu1" "Thanks"
              (on_store d')).2 = [msgs] ∧
    ChatMessage.mk ChatMessage.user "Is lot P2 open?" ∈ msgs.
Proof.
  intros env d'.
  assert (length (stored_for "eu1" Sample.store) < 10)%nat as Hshort
    by (vm_compute; lia).
  split; [exact Hshort|].
  exact (posted_message_reaches_model Sample.templates env env "eu1" "user"
           "Is lot P2 open?" "Thanks" Sample.store
           (EventUser.mk "eu1" "u1" "e1") Sample.ada "Expo"
           Hshort eq_refl eq_refl eq_refl eq_refl eq_refl eq_refl).
Defined.
